(** * IMF demuxer (libavformat/imfdec.c): Asset Map parsing and registry lifecycle

    A shallow embedding of [parse_imf_asset_map_from_xml_dom],
    [imf_asset_map_alloc], [imf_asset_map_free], [parse_assetmap],
    [imf_read_header], [ff_imf_read_packet] and [imf_close].

    - The libxml2 document is an immutable tree; an [xmlNodePtr] is a
      position in it (a zipper), so that [parent], [next] and child
      navigation are the pointer walks of the C code.
    - The C heap is a growing list of blocks; a freed block leaves a
      tombstone, so that a dangling pointer is observable.
    - Undefined behaviour (null or dangling dereference, write past the end
      of an allocation) is the result [Fault]; a loop that does not end is
      the result [OutOfFuel] for every amount of fuel. *)

From Stdlib Require Import ZArith String Ascii List Bool Lia.
From stdpp Require Import base option list.
Import ListNotations.

Local Open Scope Z_scope.

(** ** Error codes (libavutil/error.h) *)

Definition MKTAG (a b c d : ascii) : Z :=
  Z.lor (Z.of_nat (nat_of_ascii a))
    (Z.lor (Z.shiftl (Z.of_nat (nat_of_ascii b)) 8)
       (Z.lor (Z.shiftl (Z.of_nat (nat_of_ascii c)) 16)
              (Z.shiftl (Z.of_nat (nat_of_ascii d)) 24))).

Definition FFERRTAG (a b c d : ascii) : Z := - MKTAG a b c d.

Definition AVERROR_INVALIDDATA : Z := FFERRTAG "I" "N" "D" "A".
Definition AVERROR_EOF : Z := FFERRTAG "E" "O" "F" " ".
Definition AVERROR_BUG : Z := FFERRTAG "B" "U" "G" "!".

(** ** Strings *)

Definition av_tolower (c : ascii) : ascii :=
  let n := nat_of_ascii c in
  if ((65 <=? n)%nat && (n <=? 90)%nat)%bool then ascii_of_nat (n + 32) else c.

(** Modelled from the spec: [av_strcasecmp] lives in libavutil/avstring.c,
    which is not among the sources; the spec asks for a case-insensitive
    comparison of tags.  The result is the difference of the first pair of
    lower-cased characters that differ, 0 when there is none. *)
Fixpoint av_strcasecmp (a b : string) : Z :=
  match a, b with
  | EmptyString, EmptyString => 0
  | EmptyString, String c2 _ => - Z.of_nat (nat_of_ascii (av_tolower c2))
  | String c1 _, EmptyString => Z.of_nat (nat_of_ascii (av_tolower c1))
  | String c1 a', String c2 b' =>
      let d := Z.of_nat (nat_of_ascii (av_tolower c1))
               - Z.of_nat (nat_of_ascii (av_tolower c2)) in
      if d =? 0 then av_strcasecmp a' b' else d
  end.

(** ** The libxml2 document tree

    libxml2 is an external library; [xmlDocGetRootElement],
    [xmlFirstElementChild], [xmlNextElementSibling] and [xmlNodeGetContent]
    follow its documented behaviour. *)

Inductive xmlElementType :=
| XML_ELEMENT_NODE
| XML_TEXT_NODE
| XML_CDATA_SECTION_NODE
| XML_COMMENT_NODE
| XML_DOCUMENT_NODE.

#[warnings="-register-all"]
Inductive xmlNode :=
| XmlNode (type : xmlElementType) (name : string) (content : string)
          (children : list xmlNode).

Definition type (n : xmlNode) : xmlElementType :=
  match n with XmlNode t _ _ _ => t end.
Definition name (n : xmlNode) : string :=
  match n with XmlNode _ s _ _ => s end.
Definition content (n : xmlNode) : string :=
  match n with XmlNode _ _ c _ => c end.
Definition children (n : xmlNode) : list xmlNode :=
  match n with XmlNode _ _ _ l => l end.

Definition is_element (n : xmlNode) : bool :=
  match type n with XML_ELEMENT_NODE => true | _ => false end.

(** The frame of an ancestor: the ancestor's own fields and the siblings
    before and after the node below it. *)
Record xmlFrame := {
  up_type : xmlElementType;
  up_name : string;
  up_content : string;
  before : list xmlNode;
  after : list xmlNode
}.

(** A non-null [xmlNodePtr]: the node pointed to and its ancestors,
    innermost first. *)
Record xmlLoc := {
  focus : xmlNode;
  ancestors : list xmlFrame
}.

Record xmlDoc := { doc_children : list xmlNode }.

(** First node of [l] satisfying [p], with the nodes before and after it. *)
Fixpoint find_split (p : xmlNode -> bool) (l : list xmlNode)
  : option (list xmlNode * xmlNode * list xmlNode) :=
  match l with
  | [] => None
  | x :: r =>
      if p x then Some ([], x, r)
      else match find_split p r with
           | Some (b, y, a) => Some (x :: b, y, a)
           | None => None
           end
  end.

Definition enter (l : xmlLoc) (p : xmlNode -> bool) : option xmlLoc :=
  match find_split p (children (focus l)) with
  | Some (b, x, a) =>
      Some {| focus := x;
              ancestors := {| up_type := type (focus l);
                              up_name := name (focus l);
                              up_content := content (focus l);
                              before := b; after := a |} :: ancestors l |}
  | None => None
  end.

(** [node->parent] *)
Definition parent (l : xmlLoc) : option xmlLoc :=
  match ancestors l with
  | [] => None
  | f :: fs =>
      Some {| focus := XmlNode (up_type f) (up_name f) (up_content f)
                               (before f ++ focus l :: after f);
              ancestors := fs |}
  end.

Definition xmlDocGetRootElement (doc : option xmlDoc) : option xmlLoc :=
  match doc with
  | None => None
  | Some d =>
      enter {| focus := XmlNode XML_DOCUMENT_NODE "" "" (doc_children d);
               ancestors := [] |} is_element
  end.

Definition xmlFirstElementChild (l : xmlLoc) : option xmlLoc :=
  enter l is_element.

Definition xmlNextElementSibling (l : xmlLoc) : option xmlLoc :=
  match ancestors l with
  | [] => None
  | f :: fs =>
      match find_split is_element (after f) with
      | Some (b, x, a) =>
          Some {| focus := x;
                  ancestors := {| up_type := up_type f;
                                  up_name := up_name f;
                                  up_content := up_content f;
                                  before := before f ++ focus l :: b;
                                  after := a |} :: fs |}
      | None => None
      end
  end.

(** [xmlNodeGetContent] on a non-null node: the text of a text, CDATA or
    comment node; for an element, the concatenated text of its text and
    CDATA descendants. *)
Fixpoint node_text (n : xmlNode) : string :=
  match n with
  | XmlNode XML_TEXT_NODE _ c _ => c
  | XmlNode XML_CDATA_SECTION_NODE _ c _ => c
  | XmlNode XML_COMMENT_NODE _ c _ => c
  | XmlNode _ _ _ l =>
      (fix texts (l : list xmlNode) : string :=
         match l with
         | [] => EmptyString
         | x :: r =>
             String.append
               (match type x with
                | XML_COMMENT_NODE => EmptyString
                | _ => node_text x
                end)
               (texts r)
         end) l
  end.

Definition named (tag : string) (n : xmlNode) : bool :=
  is_element n && (av_strcasecmp (name n) tag =? 0).

(** Modelled from the spec: [xml_get_child_element_by_name] is declared in
    imf_internal.h and defined outside the sources; the spec finds the
    direct child element with the given tag, tags compared without regard
    to case. *)
Definition xml_get_child_element_by_name (l : xmlLoc) (tag : string)
  : option xmlLoc :=
  enter l (named tag).

(** ** UUIDs *)

(** [typedef uint8_t UUID[16]] *)
Definition UUID := list Z.

Definition hex_digit (c : ascii) : option Z :=
  let n := Z.of_nat (nat_of_ascii c) in
  if (48 <=? n) && (n <=? 57) then Some (n - 48)
  else if (97 <=? n) && (n <=? 102) then Some (n - 87)
  else if (65 <=? n) && (n <=? 70) then Some (n - 55)
  else None.

(** Reads [n] bytes, two hexadecimal digits each, from the front of [s]. *)
Fixpoint hex_bytes (n : nat) (s : string) : option (list Z * string) :=
  match n with
  | O => Some ([], s)
  | S n' =>
      match s with
      | String c1 (String c2 r) =>
          match hex_digit c1, hex_digit c2 with
          | Some h, Some l =>
              match hex_bytes n' r with
              | Some (bs, r') => Some (16 * h + l :: bs, r')
              | None => None
              end
          | _, _ => None
          end
      | _ => None
      end
  end.

Definition hyphen (s : string) : option string :=
  match s with
  | String "-" r => Some r
  | _ => None
  end.

(** Modelled from the spec: the decoder behind [xml_read_UUID] is defined
    outside the sources; the spec fixes the textual form as 8-4-4-4-12
    hyphenated hexadecimal, case-insensitive, decoded to 16 raw bytes. *)
Definition uuid_decode (s : string) : option UUID :=
  match hex_bytes 4 s with
  | Some (b1, s1) =>
  match hyphen s1 with
  | Some s1' =>
  match hex_bytes 2 s1' with
  | Some (b2, s2) =>
  match hyphen s2 with
  | Some s2' =>
  match hex_bytes 2 s2' with
  | Some (b3, s3) =>
  match hyphen s3 with
  | Some s3' =>
  match hex_bytes 2 s3' with
  | Some (b4, s4) =>
  match hyphen s4 with
  | Some s4' =>
  match hex_bytes 6 s4' with
  | Some (b5, EmptyString) => Some (b1 ++ b2 ++ b3 ++ b4 ++ b5)
  | _ => None
  end
  | None => None end
  | None => None end
  | None => None end
  | None => None end
  | None => None end
  | None => None end
  | None => None end
  | None => None end.

(** Modelled from the spec: [xml_read_UUID] is declared in imf_internal.h
    and defined outside the sources; the spec reads the text of the element
    and fails when the element is missing, empty, or not decodable.  [None]
    stands for the non-zero return value, [Some u] for 0 with [u] written
    to the output buffer. *)
Definition xml_read_UUID (element : option xmlLoc) : option UUID :=
  match element with
  | None => None
  | Some l => uuid_decode (node_text (focus l))
  end.

(** ** Path resolution *)

Definition is_alpha (c : ascii) : bool :=
  let n := nat_of_ascii (av_tolower c) in ((97 <=? n)%nat && (n <=? 122)%nat)%bool.

Definition is_scheme_char (c : ascii) : bool :=
  let n := nat_of_ascii c in
  (is_alpha c || ((48 <=? n)%nat && (n <=? 57)%nat)
   || (n =? 43)%nat || (n =? 45)%nat || (n =? 46)%nat)%bool.

(** The rest of a scheme, up to and including its colon. *)
Fixpoint scheme_tail (s : string) : bool :=
  match s with
  | EmptyString => false
  | String c r =>
      if (nat_of_ascii c =? 58)%nat then true
      else if is_scheme_char c then scheme_tail r else false
  end.

Definition has_scheme (p : string) : bool :=
  match p with
  | String c r => (is_alpha c && scheme_tail r)%bool
  | EmptyString => false
  end.

Definition is_filesystem_absolute (p : string) : bool :=
  match p with
  | String "/" _ => true
  | _ => false
  end.

Definition is_absolute (p : string) : bool :=
  (is_filesystem_absolute p || has_scheme p)%bool.

Fixpoint ends_with_slash (s : string) : bool :=
  match s with
  | EmptyString => false
  | String c EmptyString => (nat_of_ascii c =? 47)%nat
  | String _ r => ends_with_slash r
  end.

(** Join of a base directory and a relative path: one separator between
    them, the path (query string and fragment included) verbatim, an empty
    base standing for the current directory. *)
Definition join (b p : string) : string :=
  let b' := match b with EmptyString => "."%string | _ => b end in
  if ends_with_slash b' then String.append b' p
  else String.append b' (String "/" p).

(** Modelled from the spec: the path resolver is [av_append_path_component]
    of libavutil/avstring.c, which is not among the sources; the spec
    returns an absolute path (filesystem-absolute or with a URL scheme)
    unchanged and joins the base directory and the path otherwise. *)
Definition resolve_path (b p : string) : string :=
  if is_absolute p then p else join b p.

Fixpoint has_slash (s : string) : bool :=
  match s with
  | EmptyString => false
  | String c r => ((nat_of_ascii c =? 47)%nat || has_slash r)%bool
  end.

Fixpoint before_last_slash (s : string) : string :=
  match s with
  | EmptyString => EmptyString
  | String c r => if has_slash r then String c (before_last_slash r)
                  else EmptyString
  end.

(** Modelled from the spec: [av_dirname] is part of libavutil, which is not
    among the sources; the spec speaks of the directory containing the
    document. *)
Definition av_dirname (s : string) : string :=
  if has_slash s then
    match before_last_slash s with
    | EmptyString => "/"%string
    | d => d
    end
  else "."%string.

(** ** The heap *)

Abbreviation addr := nat.

(** Modelled from the spec: imf.h, which declares [IMFAssetLocator] and
    [IMFAssetMap], is not among the sources.  By the spec's data model a
    locator holds a 16-byte UUID and a pointer to its URI; [assets] is an
    array of pointers to locators (line 127 stores [asset], an
    [IMFAssetLocator *], into it); [asset_count] is taken as an unbounded
    integer.  Pointers are 8 bytes wide. *)
Definition sizeof_ptr : Z := 8.
Definition sizeof_IMFAssetLocator : Z := 16 + sizeof_ptr.

Inductive block :=
| BAssetMap (assets : option addr) (asset_count : Z)
| BAssetArray (bytes : Z) (slots : list (option addr))
| BAssetLocator (uuid : option UUID) (absolute_uri : option addr)
| BString (s : string)
| BOpaque.

(** A heap cell is [Some b] while allocated and [None] once freed;
    addresses are never reused. *)
Abbreviation Heap := (list (option block)).

Inductive Res (A : Type) :=
| Ret (a : A) (h : Heap)
| Fault
| OutOfFuel.
Arguments Ret {A} a h.
Arguments Fault {A}.
Arguments OutOfFuel {A}.

Definition M (A : Type) := Heap -> Res A.

Definition ret {A} (a : A) : M A := fun h => Ret a h.
Definition fault {A} : M A := fun _ => Fault.
Definition out_of_fuel {A} : M A := fun _ => OutOfFuel.
Definition bind {A B} (m : M A) (k : A -> M B) : M B :=
  fun h => match m h with
           | Ret a h' => k a h'
           | Fault => Fault
           | OutOfFuel => OutOfFuel
           end.

Notation "'let*' x := c 'in' k" := (bind c (fun x => k))
  (at level 10, x pattern, c at level 100, k at level 200).

(** [av_malloc] returns a fresh block; running out of memory is not
    modelled. *)
Definition av_malloc (b : block) : M addr :=
  fun h => Ret (length h) (h ++ [Some b]).

Definition load (a : addr) : M block :=
  fun h => match h !! a with
           | Some (Some b) => Ret b h
           | _ => Fault
           end.

Definition store (a : addr) (b : block) : M unit :=
  fun h => match h !! a with
           | Some (Some _) => Ret tt (<[a := Some b]> h)
           | _ => Fault
           end.

(** [av_free]: a null pointer is accepted; freeing a block twice, or a
    pointer that was never allocated, is undefined. *)
Definition av_free (p : option addr) : M unit :=
  match p with
  | None => ret tt
  | Some a =>
      fun h => match h !! a with
               | Some (Some _) => Ret tt (<[a := None]> h)
               | _ => Fault
               end
  end.

(** Number of live allocations. *)
Definition live (h : Heap) : nat :=
  length (filter (fun c : option block => is_Some c) h).

Definition load_cstr (p : option addr) : M (option string) :=
  match p with
  | None => ret None
  | Some a =>
      let* b := load a in
      match b with
      | BString s => ret (Some s)
      | _ => fault
      end
  end.

(** [xmlNodeGetContent]: null for a null node, a fresh string otherwise. *)
Definition xmlNodeGetContent (n : option xmlLoc) : M (option addr) :=
  match n with
  | None => ret None
  | Some l => let* a := av_malloc (BString (node_text (focus l))) in ret (Some a)
  end.

(** Modelled from the spec: [av_append_path_component] on C strings (see
    [resolve_path]): a fresh string holding the resolved path; the spec
    gives no result for a null argument, the model returns null. *)
Definition av_append_path_component (path component : option string)
  : M (option addr) :=
  match path, component with
  | Some b, Some p => let* a := av_malloc (BString (resolve_path b p)) in ret (Some a)
  | _, _ => ret None
  end.

Definition strdup (p : option addr) : M (option addr) :=
  let* s := load_cstr p in
  match s with
  | None => fault
  | Some str => let* a := av_malloc (BString str) in ret (Some a)
  end.

(** [av_realloc] of an array of pointers: the block moves, the slots that
    fit are kept, new slots are uninitialised ([None]). *)
Definition av_realloc (p : option addr) (size : Z) : M (option addr) :=
  let n := Z.to_nat (size / sizeof_ptr) in
  match p with
  | None =>
      let* a := av_malloc (BAssetArray size (replicate n None)) in ret (Some a)
  | Some old =>
      let* b := load old in
      match b with
      | BAssetArray _ slots =>
          let* _ := av_free (Some old) in
          let* a := av_malloc (BAssetArray size (resize n None slots)) in
          ret (Some a)
      | _ => fault
      end
  end.

Definition load_asset_map (p : option addr) : M (option addr * Z) :=
  match p with
  | None => fault
  | Some m =>
      let* b := load m in
      match b with
      | BAssetMap a c => ret (a, c)
      | _ => fault
      end
  end.

Definition store_asset_map (p : option addr) (a : option addr) (c : Z) : M unit :=
  match p with
  | None => fault
  | Some m => store m (BAssetMap a c)
  end.

Definition load_locator (a : addr) : M (option UUID * option addr) :=
  let* b := load a in
  match b with
  | BAssetLocator u s => ret (u, s)
  | _ => fault
  end.

(** ** The Asset Map parser *)

Inductive step :=
| Return (r : Z)
| Next (node : option xmlLoc).

(** [assets = av_realloc(assets, asset_count + 1 * sizeof(IMFAssetLocator))]
    on the fields of the asset map (line 126). *)
Definition grow_assets (asset_map : option addr) : M unit :=
  let* (arr, cnt) := load_asset_map asset_map in
  let* arr' := av_realloc arr (cnt + 1 * sizeof_IMFAssetLocator) in
  store_asset_map asset_map arr' cnt.

(** [assets[asset_count++] = asset] on the fields of the asset map
    (line 127); a slot is one pointer wide. *)
Definition push_asset (asset_map : option addr) (asset : addr) : M unit :=
  let* (arr, cnt) := load_asset_map asset_map in
  match arr with
  | None => fault
  | Some a =>
      let* b := load a in
      match b with
      | BAssetArray bytes slots =>
          if (0 <=? cnt) && ((cnt + 1) * sizeof_ptr <=? bytes) then
            let* _ := store a (BAssetArray bytes (<[Z.to_nat cnt := Some asset]> slots)) in
            store_asset_map asset_map arr (cnt + 1)
          else fault
      | _ => fault
      end
  end.

Definition set_uuid (asset : addr) (u : UUID) : M unit :=
  let* (_, s) := load_locator asset in store asset (BAssetLocator (Some u) s).

Definition set_absolute_uri (asset : addr) (s : option addr) : M unit :=
  let* (u, _) := load_locator asset in store asset (BAssetLocator u s).

(** One pass through the body of the [while (node)] loop (lines 93-127):
    either a [return], or the value of [node] for the next test. *)
Definition asset_body (node : xmlLoc) (asset_map base_url : option addr)
  : M step :=
  if negb (av_strcasecmp (name (focus node)) "Asset" =? 0) then
    (* continue: [node] is not advanced *)
    ret (Next (Some node))
  else
    let* asset := av_malloc (BAssetLocator None None) in
    match xml_read_UUID (xml_get_child_element_by_name node "Id") with
    | None =>
        let* _ := av_free (Some asset) in
        ret (Return 1)
    | Some u =>
        let* _ := set_uuid asset u in
        match xml_get_child_element_by_name node "ChunkList" with
        | None => ret (Return AVERROR_INVALIDDATA)
        | Some node1 =>
            match xml_get_child_element_by_name node1 "Chunk" with
            | None => ret (Return AVERROR_INVALIDDATA)
            | Some node2 =>
                let* uri := xmlNodeGetContent
                              (xml_get_child_element_by_name node2 "Path") in
                let* base := load_cstr base_url in
                let* text := load_cstr uri in
                let* uri' := av_append_path_component base text in
                let* dup := strdup uri' in
                let* _ := set_absolute_uri asset dup in
                let* _ := av_free uri' in
                match parent node2 ≫= parent with
                | None => fault
                | Some up =>
                    let node3 := xmlNextElementSibling up in
                    let* _ := grow_assets asset_map in
                    let* _ := push_asset asset_map asset in
                    ret (Next node3)
                end
            end
        end
    end.

(** The [while (node)] loop; [fuel] bounds the number of passes. *)
Fixpoint asset_loop (fuel : nat) (node : option xmlLoc)
    (asset_map base_url : option addr) : M Z :=
  match node with
  | None => ret 0
  | Some n =>
      match fuel with
      | O => out_of_fuel
      | S fuel' =>
          let* s := asset_body n asset_map base_url in
          match s with
          | Return r => ret r
          | Next node' => asset_loop fuel' node' asset_map base_url
          end
      end
  end.

Definition parse_imf_asset_map_from_xml_dom (fuel : nat) (doc : option xmlDoc)
    (asset_map base_url : option addr) : M Z :=
  match xmlDocGetRootElement doc with
  | None => ret AVERROR_INVALIDDATA
  | Some asset_map_element =>
      if negb (is_element (focus asset_map_element))
         || negb (av_strcasecmp (name (focus asset_map_element)) "AssetMap" =? 0)
      then ret AVERROR_INVALIDDATA
      else
        match xml_get_child_element_by_name asset_map_element "AssetList" with
        | None => ret AVERROR_INVALIDDATA
        | Some node =>
            asset_loop fuel (xmlFirstElementChild node) asset_map base_url
        end
  end.

(** ** Registry lifecycle *)

Definition imf_asset_map_alloc : M (option addr) :=
  let* a := av_malloc (BAssetMap None 0) in ret (Some a).

(** [for (i = 0; i < asset_count; ++i) av_free(assets[i]);] with [n]
    iterations left. *)
Fixpoint free_assets (n : nat) (i : Z) (asset_map : option addr) : M unit :=
  match n with
  | O => ret tt
  | S n' =>
      let* (arr, cnt) := load_asset_map asset_map in
      if i <? cnt then
        match arr with
        | None => fault
        | Some a =>
            let* b := load a in
            match b with
            | BAssetArray bytes slots =>
                if (0 <=? i) && ((i + 1) * sizeof_ptr <=? bytes) then
                  match slots !! Z.to_nat i with
                  | Some (Some p) =>
                      let* _ := av_free (Some p) in
                      free_assets n' (i + 1) asset_map
                  | _ => fault
                  end
                else fault
            | _ => fault
            end
        end
      else ret tt
  end.

(** The pointer is passed by value: [av_freep(&asset_map)] clears the
    parameter, not the caller's copy. *)
Definition imf_asset_map_free (asset_map : option addr) : M unit :=
  match asset_map with
  | None => ret tt
  | Some m =>
      let* (_, cnt) := load_asset_map asset_map in
      let* _ := free_assets (Z.to_nat cnt) 0 asset_map in
      let* (arr, cnt') := load_asset_map asset_map in
      let* _ := av_free arr in
      let* _ := store_asset_map asset_map None cnt' in
      av_free (Some m)
  end.

(** ** The demuxer context *)

Record IMFContext := {
  base_url : option addr;
  asset_map_path : option addr;
  avio_opts : option addr;
  cpl : option addr;
  asset_map : option addr
}.

(** What the collaborators outside this file answer during one open: the
    CPL parser, the I/O layer and the XML reader.  The stream, its read
    buffer and the libxml2 document are theirs and are not blocks of the
    modelled heap. *)
Record Env := {
  cpl_result : Z;
  avio_open2_result : Z;
  avio_read_result : Z;
  avio_feof_result : bool;
  buf_len : Z;
  xmlReadMemory_result : option xmlDoc
}.

Definition parse_assetmap (fuel : nat) (env : Env) (c : IMFContext)
    (url : option addr) (in_given : bool) : M (Z * IMFContext) :=
  let* us := load_cstr url in
  let* u := match us with
            | Some s => let* a := av_malloc (BString (av_dirname s)) in
                        ret (Some a)
            | None => fault
            end in
  let* am := imf_asset_map_alloc in
  let c := {| base_url := u; asset_map_path := asset_map_path c;
              avio_opts := avio_opts c; cpl := cpl c; asset_map := am |} in
  match am with
  | None => ret (AVERROR_BUG, c)
  | Some _ =>
      if negb in_given && (avio_open2_result env <? 0) then
        ret (avio_open2_result env, c)
      else if (avio_read_result env <? 0) || negb (avio_feof_result env)
              || (buf_len env =? 0) then
        ret (if avio_read_result env =? 0 then AVERROR_INVALIDDATA
             else avio_read_result env, c)
      else
        let* r := parse_imf_asset_map_from_xml_dom fuel
                    (xmlReadMemory_result env) (asset_map c) (base_url c) in
        ret (r, c)
  end.

Definition imf_close (c : IMFContext) : M (Z * IMFContext) :=
  let* _ := av_free (avio_opts c) in
  let* _ := av_free (base_url c) in
  let* _ := imf_asset_map_free (asset_map c) in
  ret (0, {| base_url := None; asset_map_path := asset_map_path c;
             avio_opts := None; cpl := cpl c; asset_map := asset_map c |}).

Definition imf_read_header (fuel : nat) (env : Env) (url : string)
    (c : IMFContext) : M (Z * IMFContext) :=
  if cpl_result env <? 0 then
    let* (_, c') := imf_close c in ret (cpl_result env, c')
  else
    let* p := av_malloc BOpaque in
    let c1 := {| base_url := base_url c; asset_map_path := asset_map_path c;
                 avio_opts := avio_opts c; cpl := Some p;
                 asset_map := asset_map c |} in
    let* path := match asset_map_path c1 with
                 | Some a => ret (Some a)
                 | None => av_append_path_component (Some (av_dirname url))
                             (Some "ASSETMAP.xml"%string)
                 end in
    let c2 := {| base_url := base_url c1; asset_map_path := path;
                 avio_opts := avio_opts c1; cpl := cpl c1;
                 asset_map := asset_map c1 |} in
    let* (r, c3) := parse_assetmap fuel env c2 (asset_map_path c2) false in
    if r <? 0 then
      let* (_, c4) := imf_close c3 in ret (r, c4)
    else ret (0, c3).

Record AVPacket := {
  pkt_data : list Z;
  pkt_size : Z;
  pkt_stream_index : Z
}.

(** [ff_imf_read_packet] touches neither the context, the packet nor the
    heap. *)
Definition ff_imf_read_packet (c : IMFContext) (pkt : AVPacket)
  : M (Z * AVPacket) :=
  ret (AVERROR_EOF, pkt).

(** ** What the registry holds, read through the heap *)

Definition entry := (UUID * string)%type.

Definition cstr_at (h : Heap) (p : option addr) : option string :=
  match p with
  | None => None
  | Some a =>
      match h !! a with
      | Some (Some (BString s)) => Some s
      | _ => None
      end
  end.

Definition read_entry (h : Heap) (slot : option addr) : option entry :=
  match slot with
  | None => None
  | Some p =>
      match h !! p with
      | Some (Some (BAssetLocator (Some u) s)) =>
          match cstr_at h s with
          | Some str => Some (u, str)
          | None => None
          end
      | _ => None
      end
  end.

(** The first [asset_count] slots of [assets], each read as an entry. *)
Definition registry_view (h : Heap) (m : addr) : option (list entry) :=
  match h !! m with
  | Some (Some (BAssetMap arr cnt)) =>
      match arr with
      | None => if cnt =? 0 then Some [] else None
      | Some a =>
          match h !! a with
          | Some (Some (BAssetArray _ slots)) =>
              if (0 <=? cnt) && (Z.to_nat cnt <=? length slots)%nat then
                mapM (read_entry h) (take (Z.to_nat cnt) slots)
              else None
          | _ => None
          end
      end
  | _ => None
  end.

(** ** The document, read without pointers *)

Definition child (n : xmlNode) (tag : string) : option xmlNode :=
  match find_split (named tag) (children n) with
  | Some (_, x, _) => Some x
  | None => None
  end.

Definition asset_uuid (n : xmlNode) : option UUID :=
  match child n "Id" with
  | Some i => uuid_decode (node_text i)
  | None => None
  end.

(** Text of the [Path] of the first [Chunk] of the [ChunkList]. *)
Definition asset_path (n : xmlNode) : option string :=
  match child n "ChunkList" with
  | Some cl =>
      match child cl "Chunk" with
      | Some ch =>
          match child ch "Path" with
          | Some p => Some (node_text p)
          | None => None
          end
      | None => None
      end
  | None => None
  end.

Definition asset_entry (base : string) (n : xmlNode) : option entry :=
  match asset_uuid n, asset_path n with
  | Some u, Some p => Some (u, resolve_path base p)
  | _, _ => None
  end.

(** The element children of [AssetList], in document order. *)
Definition asset_elements (doc : option xmlDoc) : list xmlNode :=
  match doc with
  | None => []
  | Some d =>
      match find_split is_element (doc_children d) with
      | Some (_, root, _) =>
          if av_strcasecmp (name root) "AssetMap" =? 0 then
            match child root "AssetList" with
            | Some al => List.filter is_element (children al)
            | None => []
            end
          else []
      | None => []
      end
  end.

(** The element a cursor points to and the elements after it. *)
Definition elements_from (node : option xmlLoc) : list xmlNode :=
  match node with
  | None => []
  | Some l =>
      focus l :: match ancestors l with
                 | f :: _ => List.filter is_element (after f)
                 | [] => []
                 end
  end.

(** ** Frame conditions on heaps *)

Definition kept (b : block) : bool :=
  match b with
  | BString _ | BAssetLocator _ _ => true
  | _ => false
  end.

(** The strings and locators of [h] are still there, unchanged, in [h']. *)
Definition keeps (h h' : Heap) : Prop :=
  forall a b, h !! a = Some (Some b) -> kept b = true -> h' !! a = Some (Some b).

(** [h'] has the cells of [h] at the addresses of [h]. *)
Definition agree_below (h h' : Heap) : Prop :=
  forall a, (a < length h)%nat -> h' !! a = h !! a.

(** The slots behind [assets]: none for a null pointer. *)
Definition slots_at (h : Heap) (p : option addr) : option (list (option addr)) :=
  match p with
  | None => Some []
  | Some a =>
      match h !! a with
      | Some (Some (BAssetArray _ slots)) => Some slots
      | _ => None
      end
  end.

Definition freed (p : option addr) (h : Heap) : Heap :=
  match p with
  | None => h
  | Some a => <[a := None]> h
  end.

(** How a run of the loop over the elements [elems] ended: [k] entries
    were appended, one per element and in their order; a return value of 0
    means every element was consumed, any other that element [k] (if there
    is one) has no entry. *)
Definition outcome (bs : string) (elems : list xmlNode) (r : Z) (k : nat)
    (added : list entry) : Prop :=
  Forall2 (fun n e => asset_entry bs n = Some e) (take k elems) added
  /\ (r = 0 -> (length elems <= k)%nat)
  /\ (r <> 0 -> elems !! k ≫= asset_entry bs = None).

Definition returned {A} (r : Res A) : option A :=
  match r with
  | Ret a _ => Some a
  | _ => None
  end.

Definition final_heap {A} (r : Res A) : option Heap :=
  match r with
  | Ret _ h => Some h
  | _ => None
  end.

(** ** Further predicates *)

Definition is_asset (n : xmlNode) : bool :=
  av_strcasecmp (name n) "Asset" =? 0.

(** [c] never shortens the heap. *)
Definition grows {A} (c : M A) : Prop :=
  forall h a h', c h = Ret a h' -> (length h <= length h')%nat.

(** The heap after freeing the blocks at [ps], in that order. *)
Definition tombstones (ps : list addr) (h : Heap) : Heap :=
  fold_left (fun h p => <[p := None]> h) ps h.

Definition is_locator (h : Heap) (p : addr) : Prop :=
  exists u s, h !! p = Some (Some (BAssetLocator u s)).

(** The registry at [m] owns the array at [arr] and the locators at [ps]:
    its count is their number, the first slots of its array point to them
    in order, and they are pairwise distinct live locators. *)
Definition owns (h : Heap) (m : addr) (arr : option addr) (ps : list addr)
  : Prop :=
  h !! m = Some (Some (BAssetMap arr (Z.of_nat (length ps))))
  /\ NoDup ps
  /\ Forall (is_locator h) ps
  /\ match arr with
     | None => ps = []
     | Some a =>
         exists bytes slots,
           h !! a = Some (Some (BAssetArray bytes slots))
           /\ take (length ps) slots = Some <$> ps
           /\ Z.of_nat (length ps) * sizeof_ptr <= bytes
     end.

(** ** Sample documents and states *)

Definition elem (tag : string) (l : list xmlNode) : xmlNode :=
  XmlNode XML_ELEMENT_NODE tag "" l.

Definition text_node (s : string) : xmlNode :=
  XmlNode XML_TEXT_NODE "text" s [].

Definition asset_element (id path : string) : xmlNode :=
  elem "Asset"
    [elem "Id" [text_node id];
     elem "ChunkList" [elem "Chunk" [elem "Path" [text_node path]]]].

Definition asset_map_doc (assets : list xmlNode) : option xmlDoc :=
  Some {| doc_children := [elem "AssetMap" [elem "AssetList" assets]] |}.

Definition sample_id : string := "8e2c1a4e-7b3d-4f1a-9c2e-1234567890ab".

Definition sample_uuid : UUID :=
  [142; 44; 26; 78; 123; 61; 79; 26; 156; 46; 18; 52; 86; 120; 144; 171].

(** The heap on entry to the parser: the base directory at address 0, an
    empty asset map at address 1. *)
Definition entry_heap : Heap :=
  [Some (BString "/mnt/imf/pkg"); Some (BAssetMap None 0)].

Definition three_assets : list xmlNode :=
  [asset_element sample_id "a.mxf"; asset_element sample_id "b.mxf";
   asset_element sample_id "c.mxf"].

Definition four_assets : list xmlNode :=
  three_assets ++ [asset_element sample_id "d.mxf"].

(** An [AssetList] whose first child element is not an [Asset]. *)
Definition stranger_first : list xmlNode :=
  [elem "Annotation" []; asset_element sample_id "a.mxf"].

Definition asset_bad_id : xmlNode :=
  elem "Asset"
    [elem "Id" [text_node "not-a-uuid"];
     elem "ChunkList" [elem "Chunk" [elem "Path" [text_node "a.mxf"]]]].

Definition asset_no_chunklist : xmlNode :=
  elem "Asset" [elem "Id" [text_node sample_id]].

Definition asset_no_chunk : xmlNode :=
  elem "Asset" [elem "Id" [text_node sample_id]; elem "ChunkList" []].

Definition asset_empty_path : xmlNode :=
  elem "Asset"
    [elem "Id" [text_node sample_id];
     elem "ChunkList" [elem "Chunk" [elem "Path" []]]].

Definition asset_blank_path : xmlNode :=
  asset_element sample_id "   ".

Definition closed_context : IMFContext :=
  {| base_url := None; asset_map_path := None; avio_opts := None;
     cpl := None; asset_map := None |}.

(** An open in which the CPL parses and the Asset Map file is read to its
    end and is well-formed XML holding [assets]. *)
Definition env_of (assets : list xmlNode) : Env :=
  {| cpl_result := 0; avio_open2_result := 0; avio_read_result := 0;
     avio_feof_result := true; buf_len := 512;
     xmlReadMemory_result := asset_map_doc assets |}.

Definition sample_url : string := "/mnt/imf/pkg/CPL.xml".

Definition sample_packet : AVPacket :=
  {| pkt_data := [1; 2; 3]; pkt_size := 3; pkt_stream_index := 0 |}.

(** The heap after a parse that failed on its second [Asset]. *)
Definition heap_after_failure : Heap :=
  Eval vm_compute in
    default [] (final_heap
      (parse_imf_asset_map_from_xml_dom 8
         (asset_map_doc [asset_element sample_id "a.mxf"; asset_no_chunk])
         (Some 1%nat) (Some 0%nat) entry_heap)).

(** The heap after a parse of an absolute, a URL and a relative path. *)
Definition heap_after_success : Heap :=
  Eval vm_compute in
    default [] (final_heap
      (parse_imf_asset_map_from_xml_dom 8
         (asset_map_doc [asset_element sample_id "/abs/a.mxf";
                         asset_element sample_id "https://cdn.example/clip.mxf";
                         asset_element sample_id "video.mxf"])
         (Some 1%nat) (Some 0%nat) entry_heap)).

(** Further sample documents and states. *)

Definition three_paths : list xmlNode :=
  [asset_element sample_id "/abs/a.mxf";
   asset_element sample_id "https://cdn.example/clip.mxf";
   asset_element sample_id "video.mxf"].

Definition failing_second : list xmlNode :=
  [asset_element sample_id "a.mxf"; asset_no_chunk].

(** An [AssetList] that holds text only. *)
Definition blank_list : list xmlNode := [text_node "  "].

(** An open in which the Asset Map file cannot be opened. *)
Definition env_unreadable : Env :=
  {| cpl_result := 0; avio_open2_result := -2; avio_read_result := 0;
     avio_feof_result := true; buf_len := 0;
     xmlReadMemory_result := None |}.

(** An open in which the CPL does not parse. *)
Definition env_bad_cpl : Env :=
  {| cpl_result := AVERROR_INVALIDDATA; avio_open2_result := 0;
     avio_read_result := 0; avio_feof_result := true; buf_len := 512;
     xmlReadMemory_result := asset_map_doc three_assets |}.

Definition path_heap : Heap := [Some (BString "/mnt/imf/pkg/ASSETMAP.xml")].

(** A context that owns the string at address 0 as its base directory and
    has no registry. *)
Definition context_with_base : IMFContext :=
  {| base_url := Some 0%nat; asset_map_path := None; avio_opts := None;
     cpl := None; asset_map := None |}.

Definition context_after_bad_id : IMFContext :=
  Eval vm_compute in
    default closed_context
      (snd <$> returned (imf_read_header 8 (env_of [asset_bad_id]) sample_url
                           closed_context [])).

Definition heap_after_bad_id : Heap :=
  Eval vm_compute in
    default []
      (final_heap (imf_read_header 8 (env_of [asset_bad_id]) sample_url
                     closed_context [])).

Definition context_after_open : IMFContext :=
  Eval vm_compute in
    default closed_context
      (snd <$> returned (imf_read_header 8 (env_of three_assets) sample_url
                           closed_context [])).

Definition heap_after_open : Heap :=
  Eval vm_compute in
    default []
      (final_heap (imf_read_header 8 (env_of three_assets) sample_url
                     closed_context [])).

Definition three_entries : list entry :=
  [(sample_uuid, "/mnt/imf/pkg/a.mxf"%string);
   (sample_uuid, "/mnt/imf/pkg/b.mxf"%string);
   (sample_uuid, "/mnt/imf/pkg/c.mxf"%string)].

(** The heap on entry to the parser in an open of [sample_url] from an
    empty heap: the CPL, the path of the Asset Map, its directory and an
    empty registry. *)
Definition open_entry_heap : Heap :=
  [Some BOpaque; Some (BString "/mnt/imf/pkg/ASSETMAP.xml");
   Some (BString "/mnt/imf/pkg"); Some (BAssetMap None 0)].

(** That heap after a parse that failed on its second [Asset]. *)
Definition open_heap_after_failure : Heap :=
  Eval vm_compute in
    default [] (final_heap
      (parse_imf_asset_map_from_xml_dom 8 (asset_map_doc failing_second)
         (Some 3%nat) (Some 2%nat) open_entry_heap)).

(** The heap and the context after the open that ran this parse. *)
Definition heap_after_failed_open : Heap :=
  Eval vm_compute in
    default []
      (final_heap (imf_read_header 8 (env_of failing_second) sample_url
                     closed_context [])).

Definition context_after_failed_open : IMFContext :=
  Eval vm_compute in
    default closed_context
      (snd <$> returned (imf_read_header 8 (env_of failing_second) sample_url
                           closed_context [])).

(** ** Navigation lemmas *)

Section Navigation.
Implicit Types (p : xmlNode -> bool) (n : xmlNode) (tag : string).

Lemma find_split_Some p l b x a :
  find_split p l = Some (b, x, a) ->
  l = b ++ x :: a /\ p x = true /\ List.filter p b = [].
Proof.
  revert b; induction l as [|y l IH]; intros b H; simpl in H; [discriminate|].
  destruct (p y) eqn:Hy.
  - injection H as <- <- <-. auto.
  - destruct (find_split p l) as [[[b' y'] a']|] eqn:E; [|discriminate].
    injection H as <- <- <-.
    destruct (IH b' eq_refl) as (-> & Hx & Hb).
    simpl. rewrite Hy. auto.
Qed.

Lemma find_split_None p l :
  find_split p l = None -> List.filter p l = [].
Proof.
  induction l as [|y l IH]; simpl; [reflexivity|].
  destruct (p y); [discriminate|].
  destruct (find_split p l) as [[[? ?] ?]|]; [discriminate|auto].
Qed.

Lemma filter_find_split p l :
  List.filter p l =
  match find_split p l with
  | Some (_, x, a) => x :: List.filter p a
  | None => []
  end.
Proof.
  destruct (find_split p l) as [[[b x] a]|] eqn:E.
  - destruct (find_split_Some _ _ _ _ _ E) as (-> & Hx & Hb).
    rewrite List.filter_app, Hb. simpl. now rewrite Hx.
  - now apply find_split_None.
Qed.

Lemma node_eta n : XmlNode (type n) (name n) (content n) (children n) = n.
Proof. now destruct n. Qed.

Lemma enter_parent l p l' : enter l p = Some l' -> parent l' = Some l.
Proof.
  unfold enter, parent. intros H.
  destruct (find_split p (children (focus l))) as [[[b x] a]|] eqn:E;
    [|discriminate].
  injection H as <-. simpl.
  destruct (find_split_Some _ _ _ _ _ E) as (<- & _ & _).
  rewrite node_eta. now destruct l.
Qed.

Lemma get_child_focus l tag :
  focus <$> xml_get_child_element_by_name l tag = child (focus l) tag.
Proof.
  unfold xml_get_child_element_by_name, enter, child.
  now destruct (find_split _ _) as [[[? ?] ?]|].
Qed.

Lemma first_child_elements l :
  elements_from (xmlFirstElementChild l)
  = List.filter is_element (children (focus l)).
Proof.
  rewrite filter_find_split. unfold xmlFirstElementChild, enter.
  now destruct (find_split _ _) as [[[? ?] ?]|].
Qed.

Lemma next_sibling_elements l :
  elements_from (xmlNextElementSibling l) = tail (elements_from (Some l)).
Proof.
  unfold xmlNextElementSibling. simpl.
  destruct (ancestors l) as [|f fs]; [reflexivity|].
  rewrite filter_find_split.
  now destruct (find_split _ _) as [[[? ?] ?]|].
Qed.

(** From a [Chunk] found below a [ChunkList] found below [node],
    [parent->parent] is [node] again. *)
Lemma grandparent_of_chunk node node1 node2 :
  xml_get_child_element_by_name node "ChunkList" = Some node1 ->
  xml_get_child_element_by_name node1 "Chunk" = Some node2 ->
  parent node2 ≫= parent = Some node.
Proof.
  intros H1 H2. apply enter_parent in H1, H2.
  now rewrite H2; simpl.
Qed.

(** The pointer walk and the pointer-free reading of an [Asset] agree. *)
Lemma read_UUID_asset_uuid node :
  xml_read_UUID (xml_get_child_element_by_name node "Id")
  = asset_uuid (focus node).
Proof.
  unfold asset_uuid. rewrite <- get_child_focus.
  now destruct (xml_get_child_element_by_name node "Id").
Qed.

End Navigation.

(** ** Heap lemmas *)

Section Frames.
Implicit Types (h : Heap) (m : addr) (es : list entry).

Lemma keeps_refl h : keeps h h.
Proof. now intros a b. Qed.

Lemma keeps_trans h1 h2 h3 : keeps h1 h2 -> keeps h2 h3 -> keeps h1 h3.
Proof. intros H12 H23 a b Ha Hb. eauto. Qed.

Lemma agree_below_keeps h h' : agree_below h h' -> keeps h h'.
Proof.
  intros H a b Ha _. rewrite H; [done|]. by eapply lookup_lt_Some.
Qed.

Lemma keeps_cstr_at h h' p s :
  keeps h h' -> cstr_at h p = Some s -> cstr_at h' p = Some s.
Proof.
  intros K. destruct p as [a|]; simpl; [|done].
  destruct (h !! a) as [[[]|]|] eqn:E; try done.
  intros [= ->]. by rewrite (K _ _ E).
Qed.

Lemma keeps_read_entry h h' slot e :
  keeps h h' -> read_entry h slot = Some e -> read_entry h' slot = Some e.
Proof.
  intros K. destruct slot as [p|]; simpl; [|done].
  destruct (h !! p) as [[[? ?|? ?|[u|] s|?|]|]|] eqn:E; try done.
  rewrite (K _ _ E) by done.
  destruct (cstr_at h s) eqn:Es; [|done].
  by rewrite (keeps_cstr_at _ _ _ _ K Es).
Qed.

Lemma agree_below_view h h' m es :
  agree_below h h' -> registry_view h m = Some es -> registry_view h' m = Some es.
Proof.
  intros A. unfold registry_view.
  destruct (h !! m) as [[[arr cnt|? ?|? ?|?|]|]|] eqn:E; try done.
  rewrite A, E by (by eapply lookup_lt_Some).
  destruct arr as [a|]; [|done].
  destruct (h !! a) as [[[? ?|bytes slots|? ?|?|]|]|] eqn:Ea; try done.
  rewrite A, Ea by (by eapply lookup_lt_Some).
  destruct (_ && _); [|done].
  rewrite !mapM_Some. intros F. eapply Forall2_impl; [exact F|].
  intros x y. simpl. by apply keeps_read_entry, agree_below_keeps.
Qed.

End Frames.

(** Side conditions on the length of a heap after stores and
    allocations. *)
Ltac len :=
  repeat first [ rewrite length_app | rewrite length_insert ];
  simpl length; lia.

Lemma take_snoc_insert {A} (l : list A) c x :
  (c < length l)%nat -> take (S c) (<[c := x]> l) = take c l ++ [x].
Proof.
  intros H. erewrite take_S_r by (by apply list_lookup_insert_eq).
  by rewrite take_insert_ge by lia.
Qed.


Lemma bind_Ret {A B} (c : M A) (k : A -> M B) h b h' :
  bind c k h = Ret b h' -> exists a h1, c h = Ret a h1 /\ k a h1 = Ret b h'.
Proof. unfold bind. destruct (c h); [eauto|done|done]. Qed.

Lemma ret_Ret {A} (a : A) h b h' : ret a h = Ret b h' -> b = a /\ h' = h.
Proof. by intros [= -> ->]. Qed.

Lemma av_malloc_Ret b h a h' :
  av_malloc b h = Ret a h' -> a = length h /\ h' = h ++ [Some b].
Proof. by intros [= <- <-]. Qed.

Lemma load_Ret a h b h' :
  load a h = Ret b h' -> h' = h /\ h !! a = Some (Some b).
Proof. unfold load. destruct (h !! a) as [[?|]|]; [|done..]. by intros [= -> ->]. Qed.

Lemma store_Ret a b h u h' :
  store a b h = Ret u h' ->
  h' = <[a := Some b]> h /\ exists b0, h !! a = Some (Some b0).
Proof. unfold store. destruct (h !! a) as [[?|]|]; [|done..]. intros [= _ <-]. eauto. Qed.

Lemma av_free_Ret a h u h' :
  av_free (Some a) h = Ret u h' ->
  h' = <[a := None]> h /\ exists b0, h !! a = Some (Some b0).
Proof. simpl. destruct (h !! a) as [[?|]|]; [|done..]. intros [= _ <-]. eauto. Qed.

Lemma load_cstr_Ret p h s h' :
  load_cstr p h = Ret s h' -> h' = h /\ s = cstr_at h p.
Proof.
  destruct p as [a|]; simpl; [|by intros [= <- <-]].
  unfold bind, load. destruct (h !! a) as [[[]|]|]; try done.
  by intros [= <- <-].
Qed.

Lemma load_asset_map_Ret m h a c h' :
  load_asset_map (Some m) h = Ret (a, c) h' ->
  h' = h /\ h !! m = Some (Some (BAssetMap a c)).
Proof.
  simpl. unfold bind, load. destruct (h !! m) as [[[]|]|]; try done.
  by intros [= <- <- <-].
Qed.

Lemma load_locator_Ret a h u s h' :
  load_locator a h = Ret (u, s) h' ->
  h' = h /\ h !! a = Some (Some (BAssetLocator u s)).
Proof.
  unfold load_locator, bind, load. destruct (h !! a) as [[[]|]|]; try done.
  by intros [= <- <- <-].
Qed.

Tactic Notation "mstep" hyp(H) "as" ident(x) ident(h) ident(E) :=
  apply bind_Ret in H; destruct H as (x & h & E & H).

Lemma av_realloc_Ret p size h q h' :
  av_realloc p size h = Ret q h' ->
  exists slots, slots_at h p = Some slots /\ q = Some (length h) /\
    h' = freed p h
         ++ [Some (BAssetArray size
                     (resize (Z.to_nat (size / sizeof_ptr)) None slots))].
Proof.
  unfold av_realloc. destruct p as [old|]; intros H.
  - mstep H as b h1 E. apply load_Ret in E as [-> E]. destruct b; try done.
    mstep H as u h2 E2. apply av_free_Ret in E2 as [-> _].
    mstep H as a h3 E3. apply av_malloc_Ret in E3 as [-> ->].
    apply ret_Ret in H as [-> ->].
    exists slots. simpl. rewrite E, length_insert. done.
  - mstep H as a h1 E. apply av_malloc_Ret in E as [-> ->].
    apply ret_Ret in H as [-> ->].
    exists []. by rewrite resize_nil.
Qed.

Lemma length_freed p h : length (freed p h) = length h.
Proof. destruct p; simpl; [apply length_insert|done]. Qed.

Lemma grow_push_view h m asset es e h1 h2 :
  registry_view h m = Some es ->
  read_entry h (Some asset) = Some e ->
  grow_assets (Some m) h = Ret tt h1 ->
  push_asset (Some m) asset h1 = Ret tt h2 ->
  registry_view h2 m = Some (es ++ [e]) /\ keeps h h2.
Proof.
  intros V R G P.
  unfold grow_assets in G. mstep G as ac h0 E. destruct ac as [arr cnt].
  apply load_asset_map_Ret in E as [-> Em].
  mstep G as q h0 E. apply av_realloc_Ret in E as (slots & Hs & -> & ->).
  apply store_Ret in G as [-> _].
  assert (Lm : (m < length h)%nat) by (by eapply lookup_lt_Some).
  unfold push_asset in P. mstep P as ac h0 E. destruct ac as [arr' cnt'].
  apply load_asset_map_Ret in E as [-> Em'].
  rewrite list_lookup_insert_eq in Em'
    by (rewrite length_app, length_freed; lia).
  injection Em' as <- <-.
  mstep P as b h0 E. apply load_Ret in E as [-> Ea].
  rewrite list_lookup_insert_ne in Ea by lia.
  rewrite list_lookup_middle in Ea by (by rewrite length_freed). injection Ea as <-.
  destruct (_ && _) eqn:Hb in P; [|done].
  apply andb_true_iff in Hb as [H0 Hb]. apply Z.leb_le in H0, Hb.
  mstep P as x h0 E. apply store_Ret in E as [-> _].
  apply store_Ret in P as [-> _].
  set (size := cnt + 1 * sizeof_IMFAssetLocator) in *.
  set (n := Z.to_nat (size / sizeof_ptr)).
  assert (Hn : (Z.to_nat cnt < n)%nat).
  { assert (cnt + 1 <= size / sizeof_ptr)
      by (apply Z.div_le_lower_bound; unfold sizeof_ptr in *; lia).
    subst n. lia. }
  assert (K : keeps h
    (<[m:=Some (BAssetMap (Some (length h)) (cnt + 1))]>
       (<[length h:=Some (BAssetArray size
                            (<[Z.to_nat cnt:=Some asset]> (resize n None slots)))]>
          (<[m:=Some (BAssetMap (Some (length h)) cnt)]>
             (freed arr h ++ [Some (BAssetArray size (resize n None slots))]))))).
  { intros a b Ha Hk.
    assert (a < length h)%nat by (by eapply lookup_lt_Some).
    assert (a <> m) by (intros ->; rewrite Em in Ha; by injection Ha as <-).
    rewrite !list_lookup_insert_ne by lia.
    rewrite lookup_app_l by (rewrite length_freed; lia).
    destruct arr as [old|]; simpl; [|done].
    rewrite list_lookup_insert_ne; [done|].
    intros ->. simpl in Hs. rewrite Ha in Hs. by destruct b. }
  split; [|exact K].
  unfold registry_view in *. rewrite Em in V.
  rewrite list_lookup_insert_eq
    by (rewrite !length_insert, length_app, length_freed; lia).
  rewrite list_lookup_insert_ne by lia.
  rewrite list_lookup_insert_eq
    by (rewrite !length_insert, length_app, length_freed; simpl; lia).
  rewrite length_insert, length_resize.
  replace (Z.to_nat (cnt + 1)) with (S (Z.to_nat cnt)) by lia.
  replace (0 <=? cnt + 1) with true by (symmetry; apply Z.leb_le; lia).
  replace (S (Z.to_nat cnt) <=? n)%nat with true
    by (symmetry; apply Nat.leb_le; lia).
  simpl andb. cbv iota.
  rewrite take_snoc_insert by (rewrite length_resize; lia).
  assert (Hold : mapM (read_entry h) (take (Z.to_nat cnt) (resize n None slots))
                 = Some es).
  { destruct arr as [old|]; simpl in Hs.
    - destruct (h !! old) as [[[]|]|]; try done. injection Hs as ->.
      destruct (_ && _) eqn:Hc in V; [|done].
      apply andb_true_iff in Hc as [_ Hc]. apply Nat.leb_le in Hc.
      rewrite take_resize_le, resize_le by lia. done.
    - injection Hs as <-. destruct (cnt =? 0) eqn:Hc; [|done].
      apply Z.eqb_eq in Hc as ->. by injection V as <-. }
  apply mapM_Some. apply mapM_Some in Hold. apply Forall2_app.
  - eapply Forall2_impl; [exact Hold|]. intros ? ?. by apply keeps_read_entry.
  - constructor; [|constructor]. by eapply keeps_read_entry.
Qed.

Ltac below :=
  let a := fresh "a" in let Ha := fresh "Ha" in
  intros a Ha;
  repeat first [ rewrite list_lookup_insert_ne by len
               | rewrite lookup_app_l by len ];
  reflexivity.

Lemma asset_path_walk node node1 node2 :
  xml_get_child_element_by_name node "ChunkList" = Some node1 ->
  xml_get_child_element_by_name node1 "Chunk" = Some node2 ->
  asset_path (focus node)
  = node_text ∘ focus <$> xml_get_child_element_by_name node2 "Path".
Proof.
  intros H1 H2. unfold asset_path.
  rewrite <- get_child_focus, H1. simpl.
  rewrite <- get_child_focus, H2. simpl.
  rewrite <- get_child_focus.
  by destruct (xml_get_child_element_by_name node2 "Path").
Qed.

Lemma asset_body_spec node m base h s h' es bs :
  registry_view h m = Some es ->
  cstr_at h base = Some bs ->
  asset_body node (Some m) base h = Ret s h' ->
  keeps h h' /\
  match s with
  | Return r =>
      r <> 0 /\ registry_view h' m = Some es
      /\ asset_entry bs (focus node) = None
  | Next node' =>
      (node' = Some node /\ h' = h)
      \/ (exists e, asset_entry bs (focus node) = Some e
                    /\ registry_view h' m = Some (es ++ [e])
                    /\ node' = xmlNextElementSibling node)
  end.
Proof.
  intros V B H. unfold asset_body in H.
  destruct (negb _).
  { apply ret_Ret in H as [-> ->]. split; [apply keeps_refl|]. by left. }
  mstep H as asset h1 E. apply av_malloc_Ret in E as [-> ->].
  rewrite read_UUID_asset_uuid in H. unfold asset_entry.
  destruct (asset_uuid (focus node)) as [u|] eqn:Eu.
  2:{ mstep H as x h1 E. apply av_free_Ret in E as [-> _].
      apply ret_Ret in H as [-> ->].
      assert (A : agree_below h
                    (<[length h:=None]> (h ++ [Some (BAssetLocator None None)])))
        by below.
      split; [by apply agree_below_keeps|].
      split; [done|]. split; [|done]. by eapply agree_below_view. }
  mstep H as x h1 E. unfold set_uuid in E. mstep E as us h0 E0.
  destruct us as [u0 s0]. apply load_locator_Ret in E0 as [-> E0].
  rewrite list_lookup_middle in E0 by done. injection E0 as <- <-.
  apply store_Ret in E as [-> _].
  set (h2 := <[length h:=Some (BAssetLocator (Some u) None)]>
               (h ++ [Some (BAssetLocator None None)])) in *.
  assert (A2 : agree_below h h2) by (subst h2; below).
  assert (L2 : length h2 = S (length h)) by (subst h2; len).
  destruct (xml_get_child_element_by_name node "ChunkList") as [node1|] eqn:E1.
  2:{ apply ret_Ret in H as [-> ->].
      split; [by apply agree_below_keeps|].
      split; [done|]. split; [by eapply agree_below_view|].
      unfold asset_path. by rewrite <- get_child_focus, E1. }
  destruct (xml_get_child_element_by_name node1 "Chunk") as [node2|] eqn:E2.
  2:{ apply ret_Ret in H as [-> ->].
      split; [by apply agree_below_keeps|].
      split; [done|]. split; [by eapply agree_below_view|].
      unfold asset_path. rewrite <- get_child_focus, E1. simpl.
      by rewrite <- get_child_focus, E2. }
  rewrite (asset_path_walk _ _ _ E1 E2).
  rewrite (grandparent_of_chunk _ _ _ E1 E2) in H.
  mstep H as uri h3 E.
  mstep H as b0 h4 Eb. apply load_cstr_Ret in Eb as [-> ->].
  mstep H as text h5 Et. apply load_cstr_Ret in Et as [-> ->].
  mstep H as uri' h6 Ea.
  mstep H as dup h7 Ed. unfold strdup in Ed.
  mstep Ed as str h8 Es. apply load_cstr_Ret in Es as [-> ->].
  destruct (xml_get_child_element_by_name node2 "Path") as [pl|]; simpl in E.
  2:{ apply ret_Ret in E as [-> ->]. simpl in Ea.
      destruct (cstr_at h2 base); apply ret_Ret in Ea as [-> ->]; done. }
  mstep E as a h9 E0. apply av_malloc_Ret in E0 as [-> ->].
  apply ret_Ret in E as [-> ->].
  set (P := node_text (focus pl)) in *.
  assert (A3 : agree_below h (h2 ++ [Some (BString P)])) by (subst h2; below).
  rewrite (keeps_cstr_at _ _ _ _ (agree_below_keeps _ _ A3) B) in Ea.
  simpl in Ea. rewrite list_lookup_middle in Ea by done. simpl in Ea.
  mstep Ea as a h9 E0. apply av_malloc_Ret in E0 as [-> ->].
  apply ret_Ret in Ea as [-> ->].
  simpl in Ed. rewrite list_lookup_middle in Ed by done.
  mstep Ed as a h9 E0. apply av_malloc_Ret in E0 as [-> ->].
  apply ret_Ret in Ed as [-> ->].
  mstep H as x9 h9 E. unfold set_absolute_uri in E. mstep E as us h10 E0.
  destruct us as [u0 s0]. apply load_locator_Ret in E0 as [-> E0].
  apply store_Ret in E as [-> _].
  mstep H as y h9 E. apply av_free_Ret in E as [-> _].
  mstep H as z h9 Eg. destruct z. mstep H as z h10 Ep. destruct z.
  apply ret_Ret in H as [-> ->].
  rewrite !lookup_app_l in E0 by len.
  subst h2. rewrite list_lookup_insert_eq in E0 by len. injection E0 as <- <-.
  match type of Eg with grow_assets _ ?hh = _ => set (h7 := hh) in * end.
  assert (A7 : agree_below h h7) by (subst h7; below).
  assert (R7 : read_entry h7 (Some (length h)) = Some (u, resolve_path bs P)).
  { subst h7. simpl.
    rewrite list_lookup_insert_ne by len.
    rewrite list_lookup_insert_eq by len. simpl.
    rewrite list_lookup_insert_ne by len.
    rewrite list_lookup_insert_ne by len.
    rewrite list_lookup_middle by len. done. }
  destruct (grow_push_view _ _ _ _ _ _ _ (agree_below_view _ _ _ _ A7 V) R7 Eg Ep)
    as [V' K'].
  split; [eapply keeps_trans; [by apply agree_below_keeps|done]|].
  right. eexists. simpl. split; [done|]. done.
Qed.

Lemma outcome_stop bs elems r :
  (r = 0 -> elems = []) ->
  (r <> 0 -> head elems ≫= asset_entry bs = None) ->
  outcome bs elems r 0 [].
Proof.
  intros H0 H1. split; [rewrite take_0; constructor|]. split.
  - intros Hr. rewrite (H0 Hr). done.
  - intros Hr. rewrite <- head_lookup. auto.
Qed.

Lemma outcome_next bs x elems r k e added :
  asset_entry bs x = Some e ->
  outcome bs elems r k added ->
  outcome bs (x :: elems) r (S k) (e :: added).
Proof.
  intros He (F & H0 & H1). split; [by constructor|]. split.
  - intros Hr. specialize (H0 Hr). simpl. lia.
  - done.
Qed.

Lemma asset_loop_spec fuel : forall node m base h r h' es bs,
  registry_view h m = Some es ->
  cstr_at h base = Some bs ->
  asset_loop fuel node (Some m) base h = Ret r h' ->
  exists k added,
    outcome bs (elements_from node) r k added
    /\ registry_view h' m = Some (es ++ added)
    /\ keeps h h'.
Proof.
  induction fuel as [|fuel IH]; intros node m base h r h' es bs V B H.
  - destruct node as [n|]; [done|]. apply ret_Ret in H as [-> ->].
    exists O, []. rewrite app_nil_r.
    split; [by apply outcome_stop|]. split; [done|apply keeps_refl].
  - destruct node as [n|]; simpl in H.
    2:{ apply ret_Ret in H as [-> ->]. exists O, []. rewrite app_nil_r.
        split; [by apply outcome_stop|]. split; [done|apply keeps_refl]. }
    mstep H as s h1 E.
    destruct (asset_body_spec _ _ _ _ _ _ _ _ V B E) as [K Hs].
    destruct s as [r0|node'].
    + apply ret_Ret in H as [-> ->]. destruct Hs as (Hr & V1 & Hn).
      exists O, []. rewrite app_nil_r.
      split; [by apply outcome_stop|]. done.
    + destruct Hs as [[-> ->]|(e & He & V1 & ->)]; [eauto|].
      destruct (IH _ _ _ _ _ _ _ _ V1 (keeps_cstr_at _ _ _ _ K B) H)
        as (k & added & O & V2 & K2).
      rewrite next_sibling_elements in O.
      exists (S k), (e :: added). rewrite <- app_assoc in V2.
      split; [by apply outcome_next|]. split; [done|by eapply keeps_trans].
Qed.

Lemma parse_spec fuel doc m base h r h' es bs :
  registry_view h m = Some es ->
  cstr_at h base = Some bs ->
  parse_imf_asset_map_from_xml_dom fuel doc (Some m) base h = Ret r h' ->
  exists k added,
    outcome bs (asset_elements doc) r k added
    /\ registry_view h' m = Some (es ++ added)
    /\ keeps h h'.
Proof.
  intros V B H.
  assert (Stop : AVERROR_INVALIDDATA <> 0) by done.
  assert (Early : forall elems, elems = [] -> r = AVERROR_INVALIDDATA -> h' = h ->
            exists k added, outcome bs elems r k added
              /\ registry_view h' m = Some (es ++ added) /\ keeps h h').
  { intros elems -> -> ->. exists O, []. rewrite app_nil_r.
    split; [by apply outcome_stop|]. split; [done|apply keeps_refl]. }
  unfold parse_imf_asset_map_from_xml_dom in H. unfold asset_elements.
  destruct doc as [d|]; simpl in H.
  2:{ apply ret_Ret in H as [-> ->]. by apply Early. }
  unfold enter in H. simpl in H.
  destruct (find_split is_element (doc_children d)) as [[[b root] a]|] eqn:Er.
  2:{ apply ret_Ret in H as [-> ->]. by apply Early. }
  simpl in H. destruct (find_split_Some _ _ _ _ _ Er) as (_ & Hroot & _).
  rewrite Hroot in H. simpl in H.
  destruct (av_strcasecmp (name root) "AssetMap" =? 0); simpl in H.
  2:{ apply ret_Ret in H as [-> ->]. by apply Early. }
  match type of H with
  | context [xml_get_child_element_by_name ?l "AssetList"] =>
      change (child root "AssetList") with (child (focus l) "AssetList");
      rewrite <- (get_child_focus l)
  end.
  destruct (xml_get_child_element_by_name _ "AssetList") as [al|]; simpl.
  2:{ apply ret_Ret in H as [-> ->]. by apply Early. }
  rewrite <- first_child_elements. by eapply asset_loop_spec.
Qed.

(** Whatever the registry holds, an append to three or more entries does
    not return: the block obtained on line 126 is too small for the store
    of line 127. *)
Lemma append_to_three_or_more_faults h m arr cnt asset :
  h !! m = Some (Some (BAssetMap arr cnt)) ->
  3 <= cnt ->
  returned ((let* _ := grow_assets (Some m) in push_asset (Some m) asset) h)
  = None.
Proof.
  intros Em Hc.
  destruct ((let* _ := grow_assets (Some m) in push_asset (Some m) asset) h)
    as [u h'| |] eqn:H; [|done..].
  exfalso. mstep H as x1 h1 G.
  unfold grow_assets in G. mstep G as ac h0 E. destruct ac as [arr0 cnt0].
  apply load_asset_map_Ret in E as [-> Em0].
  rewrite Em in Em0. injection Em0 as <- <-.
  mstep G as q h0 E. apply av_realloc_Ret in E as (slots & Hs & -> & ->).
  apply store_Ret in G as [-> _].
  assert (Lm : (m < length h)%nat) by (by eapply lookup_lt_Some).
  unfold push_asset in H. mstep H as ac h0 E. destruct ac as [arr' cnt'].
  apply load_asset_map_Ret in E as [-> Em'].
  rewrite list_lookup_insert_eq in Em'
    by (rewrite length_app, length_freed; lia).
  injection Em' as <- <-.
  mstep H as b h0 E. apply load_Ret in E as [-> Ea].
  rewrite list_lookup_insert_ne in Ea by lia.
  rewrite list_lookup_middle in Ea by (by rewrite length_freed).
  injection Ea as <-.
  destruct (_ && _) eqn:Hb in H; [|done].
  apply andb_true_iff in Hb as [_ Hb]. apply Z.leb_le in Hb.
  unfold sizeof_IMFAssetLocator, sizeof_ptr in Hb. lia.
Qed.

Lemma loop_never_advances fuel n m b h :
  (av_strcasecmp (name (focus n)) "Asset" =? 0) = false ->
  asset_loop fuel (Some n) m b h = OutOfFuel.
Proof.
  intros Hn. induction fuel as [|fuel IH]; simpl; [done|].
  unfold bind, asset_body. rewrite Hn. simpl. exact IH.
Qed.

(** ** The claims *)

(** C1 (as the code has it): three [Asset] children give a registry of three
    entries in document order, but the fourth is stored past the end of
    [assets]: line 126 asks for [asset_count + sizeof(IMFAssetLocator)]
    bytes, 27 for the fourth entry, where four pointers need 32; whatever
    the fuel, the parse of four well-formed [Asset]s does not return. *)
Theorem fourth_asset_is_stored_out_of_bounds :
  let run assets fuel :=
    parse_imf_asset_map_from_xml_dom fuel (asset_map_doc assets)
      (Some 1%nat) (Some 0%nat) entry_heap in
  returned (run three_assets 3%nat) = Some 0
  /\ (final_heap (run three_assets 3%nat) ≫= fun h => registry_view h 1%nat)
     = Some [(sample_uuid, "/mnt/imf/pkg/a.mxf"%string);
             (sample_uuid, "/mnt/imf/pkg/b.mxf"%string);
             (sample_uuid, "/mnt/imf/pkg/c.mxf"%string)]
  /\ forall fuel, run four_assets (4 + fuel)%nat = Fault.
Proof.
  intros run. split; [vm_compute; reflexivity|].
  split; [vm_compute; reflexivity|].
  intros fuel. vm_compute. reflexivity.
Qed.

(** C2 (as the code has it): a child of [AssetList] that is not an [Asset]
    is met with [continue] before [node] is advanced, so the loop comes
    back to the same node: for every amount of fuel, every registry and
    every heap, the parse of such a document runs out of fuel. *)
Theorem non_asset_child_is_never_left fuel m base h :
  parse_imf_asset_map_from_xml_dom fuel (asset_map_doc stranger_first)
    m base h = OutOfFuel.
Proof.
  unfold parse_imf_asset_map_from_xml_dom. simpl.
  now apply loop_never_advances.
Qed.

(** C3 (as the code has it): an [Asset] whose [Id] does not decode makes the
    parser return 1, not [AVERROR_INVALIDDATA]; [imf_read_header] tests
    [< 0], so the open returns 0. *)
Theorem undecodable_id_opens_successfully fuel :
  returned (parse_imf_asset_map_from_xml_dom (S fuel)
              (asset_map_doc [asset_bad_id]) (Some 1%nat) (Some 0%nat)
              entry_heap) = Some 1
  /\ fst <$> returned (imf_read_header (S fuel) (env_of [asset_bad_id])
                         sample_url closed_context []) = Some 0.
Proof. split; vm_compute; reflexivity. Qed.

(** C4 (as the code has it): when [ChunkList] or [Chunk] is missing the
    parser returns [AVERROR_INVALIDDATA] without freeing the locator it
    allocated on line 97: one more block is live after the return. *)
Theorem missing_chunklist_leaks_the_locator fuel :
  let run asset :=
    parse_imf_asset_map_from_xml_dom (S fuel) (asset_map_doc [asset])
      (Some 1%nat) (Some 0%nat) entry_heap in
  returned (run asset_no_chunklist) = Some AVERROR_INVALIDDATA
  /\ live <$> final_heap (run asset_no_chunklist) = Some (S (live entry_heap))
  /\ returned (run asset_no_chunk) = Some AVERROR_INVALIDDATA
  /\ live <$> final_heap (run asset_no_chunk) = Some (S (live entry_heap)).
Proof. intros run. split; [|split; [|split]]; vm_compute; reflexivity. Qed.

(** C5 (as the code has it): the text of [Path] is not tested; an empty or
    blank [Path] is joined to the base directory and the entry is appended,
    the parse returning 0. *)
Theorem empty_path_is_accepted fuel :
  let run asset :=
    parse_imf_asset_map_from_xml_dom (S fuel) (asset_map_doc [asset])
      (Some 1%nat) (Some 0%nat) entry_heap in
  returned (run asset_empty_path) = Some 0
  /\ (final_heap (run asset_empty_path) ≫= fun h => registry_view h 1%nat)
     = Some [(sample_uuid, "/mnt/imf/pkg/"%string)]
  /\ returned (run asset_blank_path) = Some 0
  /\ (final_heap (run asset_blank_path) ≫= fun h => registry_view h 1%nat)
     = Some [(sample_uuid, "/mnt/imf/pkg/   "%string)].
Proof.
  intros run. destruct fuel; (split; [|split; [|split]]); vm_compute; reflexivity.
Qed.

(** C6: the resolver returns an absolute path (filesystem-absolute or with
    a URL scheme) unchanged and the join of base directory and path
    otherwise; and whenever the parser returns, the entries it has appended
    are those of the first element children of [AssetList], in document
    order (of all of them when it returns 0), each with an [absolute_uri]
    that is the text of [Path] verbatim when that text is absolute - in
    particular when it has a scheme, whatever the base directory - and its
    join with the base directory otherwise. *)
Theorem absolute_path_is_kept_verbatim
    fuel doc m base h r h' es bs :
  registry_view h m = Some es ->
  cstr_at h base = Some bs ->
  parse_imf_asset_map_from_xml_dom fuel doc (Some m) base h = Ret r h' ->
  (forall b p, resolve_path b p = if is_absolute p then p else join b p)
  /\ exists k added,
       registry_view h' m = Some (es ++ added)
       /\ (r = 0 -> take k (asset_elements doc) = asset_elements doc)
       /\ Forall2
            (fun n e =>
               exists p, asset_path n = Some p
                 /\ e.2 = resolve_path bs p
                 /\ (is_absolute p = true -> e.2 = p)
                 /\ (has_scheme p = true -> e.2 = p)
                 /\ (is_absolute p = false -> e.2 = join bs p))
            (take k (asset_elements doc)) added.
Proof.
  intros V B H. split; [reflexivity|].
  destruct (parse_spec _ _ _ _ _ _ _ _ _ V B H)
    as (k & added & (F & H0 & _) & V' & _).
  exists k, added. split; [exact V'|].
  split; [intros Hr; apply take_ge; auto|].
  eapply Forall2_impl; [exact F|].
  intros n e He. unfold asset_entry in He.
  destruct (asset_uuid n); [|discriminate].
  destruct (asset_path n) as [p|]; [|discriminate].
  injection He as <-. exists p. simpl. unfold resolve_path, is_absolute.
  split; [reflexivity|]. split; [reflexivity|].
  destruct (is_filesystem_absolute p), (has_scheme p); simpl; auto;
    repeat split; auto; discriminate.
Qed.

Lemma absolute_path_is_kept_verbatim_witness :
  let doc :=
    asset_map_doc [asset_element sample_id "/abs/a.mxf";
                   asset_element sample_id "https://cdn.example/clip.mxf";
                   asset_element sample_id "video.mxf"] in
  registry_view entry_heap 1%nat = Some []
  /\ cstr_at entry_heap (Some 0%nat) = Some "/mnt/imf/pkg"%string
  /\ parse_imf_asset_map_from_xml_dom 8 doc (Some 1%nat) (Some 0%nat)
       entry_heap = Ret 0 heap_after_success
  /\ registry_view heap_after_success 1%nat
     = Some [(sample_uuid, "/abs/a.mxf"%string);
             (sample_uuid, "https://cdn.example/clip.mxf"%string);
             (sample_uuid, "/mnt/imf/pkg/video.mxf"%string)]
  /\ ((forall b p, resolve_path b p = if is_absolute p then p else join b p)
      /\ exists k added,
           registry_view heap_after_success 1%nat = Some ([] ++ added)
           /\ (0 = 0 -> take k (asset_elements doc) = asset_elements doc)
           /\ Forall2
                (fun n e =>
                   exists p, asset_path n = Some p
                     /\ e.2 = resolve_path "/mnt/imf/pkg" p
                     /\ (is_absolute p = true -> e.2 = p)
                     /\ (has_scheme p = true -> e.2 = p)
                     /\ (is_absolute p = false -> e.2 = join "/mnt/imf/pkg" p))
                (take k (asset_elements doc)) added).
Proof.
  intros doc.
  split; [vm_compute; reflexivity|].
  split; [vm_compute; reflexivity|].
  split; [vm_compute; reflexivity|].
  split; [vm_compute; reflexivity|].
  apply (absolute_path_is_kept_verbatim 8 doc 1%nat (Some 0%nat) entry_heap 0
           heap_after_success [] "/mnt/imf/pkg"%string);
    vm_compute; reflexivity.
Defined.

(** C7 (as the code has it): [imf_asset_map_free] accepts a null registry,
    and the first [imf_close] after an open frees the registry, its array
    and its locator; but the context keeps the pointer to the freed
    registry ([av_freep] clears the parameter of [imf_asset_map_free], a
    copy), so a second release reads freed memory. *)
Theorem second_release_faults :
  let opened := imf_read_header 8 (env_of [asset_element sample_id "a.mxf"])
                  sample_url closed_context in
  (forall h, imf_asset_map_free None h = Ret tt h)
  /\ returned ((let* (_, c) := opened in imf_close c) [])
     = Some (0, {| base_url := None; asset_map_path := Some 1%nat;
                   avio_opts := None; cpl := Some 0%nat;
                   asset_map := Some 3%nat |})
  /\ final_heap ((let* (_, c) := opened in imf_close c) [])
     = Some [Some BOpaque; Some (BString "/mnt/imf/pkg/ASSETMAP.xml"); None;
             None; None; Some (BString "a.mxf"); None;
             Some (BString "/mnt/imf/pkg/a.mxf"); None]
  /\ (let* (_, c) := opened in
      let* (_, c') := imf_close c in
      imf_close c') [] = Fault
  /\ (let* (_, c) := opened in
      let* _ := imf_asset_map_free (asset_map c) in
      imf_asset_map_free (asset_map c)) [] = Fault.
Proof.
  intros opened. split; [reflexivity|].
  split; [vm_compute; reflexivity|].
  split; [vm_compute; reflexivity|].
  split; vm_compute; reflexivity.
Qed.

(** C8: whatever the context, the packet and the heap, [ff_imf_read_packet]
    returns [AVERROR_EOF] and leaves the packet and the heap as they
    were. *)
Theorem read_packet_is_always_eof (c : IMFContext) (pkt : AVPacket) (h : Heap) :
  ff_imf_read_packet c pkt h = Ret (AVERROR_EOF, pkt) h
  /\ AVERROR_EOF = -541478725.
Proof. split; reflexivity. Qed.

(** C9: a null document makes the parser return [AVERROR_INVALIDDATA] with
    the heap - the registry with it - untouched, which is just what it does
    for a document without a root element. *)
Theorem null_document_is_a_missing_root fuel d m base h :
  xmlDocGetRootElement (Some d) = None ->
  parse_imf_asset_map_from_xml_dom fuel None m base h
  = Ret AVERROR_INVALIDDATA h
  /\ parse_imf_asset_map_from_xml_dom fuel (Some d) m base h
     = parse_imf_asset_map_from_xml_dom fuel None m base h
  /\ AVERROR_INVALIDDATA = -1094995529.
Proof.
  intros Hd. unfold parse_imf_asset_map_from_xml_dom. rewrite Hd.
  split; [reflexivity|]. split; reflexivity.
Qed.

Lemma null_document_is_a_missing_root_witness :
  xmlDocGetRootElement
    (Some {| doc_children := [XmlNode XML_COMMENT_NODE "comment" "empty" []] |})
  = None
  /\ parse_imf_asset_map_from_xml_dom 8 None (Some 1%nat) (Some 0%nat)
       entry_heap
     = Ret AVERROR_INVALIDDATA entry_heap
  /\ parse_imf_asset_map_from_xml_dom 8
       (Some {| doc_children := [XmlNode XML_COMMENT_NODE "comment" "empty" []] |})
       (Some 1%nat) (Some 0%nat) entry_heap
     = parse_imf_asset_map_from_xml_dom 8 None (Some 1%nat) (Some 0%nat)
         entry_heap
  /\ AVERROR_INVALIDDATA = -1094995529.
Proof.
  split; [reflexivity|].
  apply (null_document_is_a_missing_root 8
           {| doc_children := [XmlNode XML_COMMENT_NODE "comment" "empty" []] |}
           (Some 1%nat) (Some 0%nat) entry_heap).
  reflexivity.
Defined.

(** ** Teardown after a failed open *)

Lemma imf_asset_map_free_releases m h u h' :
  imf_asset_map_free (Some m) h = Ret u h' -> h' !! m = Some None.
Proof.
  unfold imf_asset_map_free. intros H.
  mstep H as ac h1 E1. destruct ac as [a0 cnt].
  mstep H as x2 h2 E2. mstep H as ac h3 E3. destruct ac as [arr cnt'].
  mstep H as x4 h4 E4. mstep H as x5 h5 E5.
  apply av_free_Ret in H as [-> [b Hb]].
  apply list_lookup_insert_eq. by eapply lookup_lt_Some.
Qed.

Lemma imf_close_releases c h r c' h' :
  imf_close c h = Ret (r, c') h' ->
  r = 0 /\ asset_map c' = asset_map c
  /\ forall m, asset_map c = Some m -> h' !! m = Some None.
Proof.
  unfold imf_close. intros H.
  mstep H as x1 h1 E1. mstep H as x2 h2 E2. mstep H as x3 h3 E3.
  apply ret_Ret in H as [[= -> ->] ->].
  split; [done|]. split; [done|].
  intros m Hm. rewrite Hm in E3. by eapply imf_asset_map_free_releases.
Qed.

(** When [imf_read_header] returns a negative value it has gone through
    [imf_close]: the registry the context points to has been released. *)
Lemma failed_open_has_released_the_registry fuel env url c h r c' h' m :
  imf_read_header fuel env url c h = Ret (r, c') h' ->
  r < 0 ->
  asset_map c' = Some m ->
  h' !! m = Some None.
Proof.
  unfold imf_read_header. intros H Hr Hm.
  destruct (cpl_result env <? 0).
  - mstep H as rc h1 E1. destruct rc as [r1 c1].
    apply ret_Ret in H as [[= -> ->] ->].
    apply imf_close_releases in E1 as (_ & Hc & Hrel).
    apply Hrel. by rewrite <- Hc.
  - mstep H as p h1 E1. mstep H as path h2 E2.
    mstep H as rc h3 E3. destruct rc as [r3 c3].
    destruct (r3 <? 0) eqn:Hneg.
    + mstep H as rc h4 E4. destruct rc as [r4 c4].
      apply ret_Ret in H as [[= -> ->] ->].
      apply imf_close_releases in E4 as (_ & Hc & Hrel).
      apply Hrel. by rewrite <- Hc.
    + apply ret_Ret in H as [[= -> ->] ->]. lia.
Qed.

(** ** Further properties of the code *)

Lemma parse_cases doc :
  (asset_elements doc = []
   /\ forall fuel m b h,
        parse_imf_asset_map_from_xml_dom fuel doc m b h
        = Ret AVERROR_INVALIDDATA h)
  \/ (exists node,
        elements_from node = asset_elements doc
        /\ forall fuel m b h,
             parse_imf_asset_map_from_xml_dom fuel doc m b h
             = asset_loop fuel node m b h).
Proof.
  unfold parse_imf_asset_map_from_xml_dom, asset_elements.
  destruct doc as [d|]; simpl; [|by left].
  unfold enter. simpl.
  destruct (find_split is_element (doc_children d)) as [[[b root] a]|] eqn:Er;
    [|by left].
  simpl. destruct (find_split_Some _ _ _ _ _ Er) as (_ & Hroot & _).
  rewrite Hroot. simpl.
  destruct (av_strcasecmp (name root) "AssetMap" =? 0); simpl; [|by left].
  match goal with
  | |- context [xml_get_child_element_by_name ?l "AssetList"] =>
      change (child root "AssetList") with (child (focus l) "AssetList");
      rewrite <- (get_child_focus l)
  end.
  destruct (xml_get_child_element_by_name _ "AssetList") as [al|]; simpl;
    [|by left].
  right. exists (xmlFirstElementChild al).
  split; [apply first_child_elements|done].
Qed.

Lemma grows_ret {A} (a : A) : grows (ret a).
Proof. by intros h a' h' [= _ <-]. Qed.

Lemma grows_fault {A} : grows (@fault A).
Proof. by intros h a h'. Qed.

Lemma grows_bind {A B} (c : M A) (k : A -> M B) :
  grows c -> (forall a, grows (k a)) -> grows (bind c k).
Proof.
  intros Hc Hk h b h' H. mstep H as a h1 E.
  specialize (Hc _ _ _ E). specialize (Hk _ _ _ _ H). lia.
Qed.

Lemma grows_av_malloc b : grows (av_malloc b).
Proof. intros h a h' [= _ <-]. rewrite length_app. lia. Qed.

Lemma grows_load a : grows (load a).
Proof. intros h b h' H. by apply load_Ret in H as [-> _]. Qed.

Lemma grows_store a b : grows (store a b).
Proof. intros h u h' H. apply store_Ret in H as [-> _]. by rewrite length_insert. Qed.

Lemma grows_av_free p : grows (av_free p).
Proof.
  destruct p as [a|]; [|apply grows_ret].
  intros h u h' H. apply av_free_Ret in H as [-> _]. by rewrite length_insert.
Qed.

Ltac grows :=
  repeat first
    [ apply grows_bind; [|intros ?]
    | apply grows_ret | apply grows_fault | apply grows_av_malloc
    | apply grows_load | apply grows_store | apply grows_av_free
    | match goal with |- grows (match ?x with _ => _ end) => destruct x end
    | match goal with |- grows (if ?x then _ else _) => destruct x end ].

Lemma grows_load_cstr p : grows (load_cstr p).
Proof. unfold load_cstr. grows. Qed.

Lemma grows_xmlNodeGetContent n : grows (xmlNodeGetContent n).
Proof. unfold xmlNodeGetContent. grows. Qed.

Lemma grows_av_append_path_component b p : grows (av_append_path_component b p).
Proof. unfold av_append_path_component. grows. Qed.

Lemma grows_strdup p : grows (strdup p).
Proof. unfold strdup. apply grows_bind; [apply grows_load_cstr|intros ?]. grows. Qed.

Lemma grows_set_uuid a u : grows (set_uuid a u).
Proof. unfold set_uuid, load_locator. grows. Qed.

Lemma grows_set_absolute_uri a s : grows (set_absolute_uri a s).
Proof. unfold set_absolute_uri, load_locator. grows. Qed.

Lemma grows_grow_assets m : grows (grow_assets m).
Proof. unfold grow_assets, load_asset_map, av_realloc, store_asset_map. grows. Qed.

Lemma grows_push_asset m a : grows (push_asset m a).
Proof. unfold push_asset, load_asset_map, store_asset_map. grows. Qed.

Lemma asset_body_shape node m base h s h' :
  asset_body node m base h = Ret s h' ->
  match s with
  | Return r =>
      is_asset (focus node) = true /\ (r = 1 \/ r = AVERROR_INVALIDDATA)
  | Next node' =>
      (is_asset (focus node) = false /\ node' = Some node /\ h' = h)
      \/ (is_asset (focus node) = true
          /\ node' = xmlNextElementSibling node
          /\ (length h < length h')%nat)
  end.
Proof.
  intros H. unfold asset_body in H. unfold is_asset.
  destruct (av_strcasecmp (name (focus node)) "Asset" =? 0); simpl in H.
  2:{ apply ret_Ret in H as [-> ->]. by left. }
  mstep H as asset h1 E. apply av_malloc_Ret in E as [-> ->].
  destruct (xml_read_UUID _) as [u|].
  2:{ mstep H as x h1 E. apply ret_Ret in H as [-> ->]. auto. }
  mstep H as x h1 E.
  destruct (xml_get_child_element_by_name node "ChunkList") as [node1|] eqn:E1.
  2:{ apply ret_Ret in H as [-> ->]. auto. }
  destruct (xml_get_child_element_by_name node1 "Chunk") as [node2|] eqn:E2.
  2:{ apply ret_Ret in H as [-> ->]. auto. }
  rewrite (grandparent_of_chunk _ _ _ E1 E2) in H.
  mstep H as uri h3 Eu. mstep H as b0 h4 Eb. mstep H as text h5 Et.
  mstep H as uri' h6 Ea. mstep H as dup h7 Ed. mstep H as x8 h8 Es.
  mstep H as x9 h9 Ef. mstep H as x10 h10 Eg. mstep H as x11 h11 Ep.
  apply ret_Ret in H as [-> ->]. right. split; [done|]. split; [done|].
  apply grows_set_uuid in E. apply grows_xmlNodeGetContent in Eu.
  apply grows_load_cstr in Eb, Et. apply grows_av_append_path_component in Ea.
  apply grows_strdup in Ed. apply grows_set_absolute_uri in Es.
  apply grows_av_free in Ef. apply grows_grow_assets in Eg.
  apply grows_push_asset in Ep. rewrite length_app in E. simpl in E. lia.
Qed.

Lemma asset_loop_shape fuel : forall node m base h r h',
  asset_loop fuel node m base h = Ret r h' ->
  (r = 0 \/ r = 1 \/ r = AVERROR_INVALIDDATA)
  /\ (r = 0 -> Forall (fun n => is_asset n = true) (elements_from node)).
Proof.
  induction fuel as [|fuel IH]; intros node m base h r h' H.
  - destruct node as [n|]; [done|]. apply ret_Ret in H as [-> ->].
    split; [auto|]. intros _. constructor.
  - destruct node as [n|]; simpl in H.
    2:{ apply ret_Ret in H as [-> ->]. split; [auto|]. intros _. constructor. }
    mstep H as s h1 E. apply asset_body_shape in E.
    destruct s as [r0|node'].
    + apply ret_Ret in H as [-> ->]. destruct E as [_ [-> | ->]];
        (split; [auto|done]).
    + destruct E as [(_ & -> & ->)|(Hn & -> & _)]; [by eapply IH|].
      destruct (IH _ _ _ _ _ _ H) as [Hr Hall]. split; [done|].
      intros H0. specialize (Hall H0). rewrite next_sibling_elements in Hall.
      simpl in *. by constructor.
Qed.


Lemma elements_from_cons node n rest :
  elements_from node = n :: rest -> exists l, node = Some l /\ focus l = n.
Proof.
  destruct node as [l|]; [|done]. simpl. intros [= <- _]. eauto.
Qed.

Lemma asset_loop_None fuel m base h : asset_loop fuel None m base h = Ret 0 h.
Proof. by destruct fuel. Qed.

Lemma live_snoc_None h : live (h ++ [None]) = live h.
Proof.
  unfold live. rewrite filter_app, length_app.
  rewrite filter_cons_False by (by intros [? ?]). simpl. lia.
Qed.

Lemma live_snoc_Some h b : live (h ++ [Some b]) = S (live h).
Proof.
  unfold live. rewrite filter_app, length_app.
  rewrite filter_cons_True by eauto. simpl. lia.
Qed.

Lemma insert_snoc {A} (l : list A) x y : <[length l := y]> (l ++ [x]) = l ++ [y].
Proof. rewrite insert_app_r_alt by lia. by rewrite Nat.sub_diag. Qed.

(** X4: the parser returns 0 only if every element child of [AssetList]
    is named [Asset] (without regard to case): any other element keeps the
    loop from returning. *)
Theorem success_means_every_child_is_an_asset fuel doc m base h h' :
  parse_imf_asset_map_from_xml_dom fuel doc m base h = Ret 0 h' ->
  Forall (fun n => av_strcasecmp (name n) "Asset" = 0) (asset_elements doc).
Proof.
  intros H. destruct (parse_cases doc) as [[_ He]|(node & <- & Hl)].
  - rewrite He in H. discriminate.
  - rewrite Hl in H. apply asset_loop_shape in H as [_ Hall].
    eapply Forall_impl; [by apply Hall|]. intros n Hn. by apply Z.eqb_eq.
Qed.

(** X5: the parser returns 0, 1 or [AVERROR_INVALIDDATA] and nothing
    else; 1, the value of the failed [Id], is the one positive value. *)
Theorem parser_returns_0_1_or_invaliddata fuel doc m base h r h' :
  parse_imf_asset_map_from_xml_dom fuel doc m base h = Ret r h' ->
  r = 0 \/ r = 1 \/ r = AVERROR_INVALIDDATA.
Proof.
  intros H. destruct (parse_cases doc) as [[_ He]|(node & _ & Hl)].
  - rewrite He in H. injection H as <- _. auto.
  - rewrite Hl in H. by apply asset_loop_shape in H as [Hr _].
Qed.

(** X9: when there is no element child to visit (no root, wrong root, no
    [AssetList], or an [AssetList] without element children) the parser
    returns 0 or [AVERROR_INVALIDDATA] with the heap untouched, whatever
    the fuel, the registry pointer and the base directory. *)
Theorem nothing_to_parse_touches_nothing doc fuel m base h :
  asset_elements doc = [] ->
  parse_imf_asset_map_from_xml_dom fuel doc m base h = Ret 0 h
  \/ parse_imf_asset_map_from_xml_dom fuel doc m base h
     = Ret AVERROR_INVALIDDATA h.
Proof.
  intros He. destruct (parse_cases doc) as [[_ Hp]|(node & Hn & Hl)].
  - right. apply Hp.
  - left. rewrite Hl. rewrite He in Hn. destruct node; [done|].
    apply asset_loop_None.
Qed.

(** X7: when the first element child of [AssetList] is an [Asset] whose
    [Id] is missing or does not decode, the parser returns 1 and the
    locator of line 97 is freed again: the heap is the one before the call
    with one freed cell, the number of live blocks is unchanged, and the
    registry and the base directory are not even read (they may be
    null). *)
Theorem undecodable_id_frees_the_locator doc n rest fuel m base h :
  asset_elements doc = n :: rest ->
  av_strcasecmp (name n) "Asset" = 0 ->
  asset_uuid n = None ->
  parse_imf_asset_map_from_xml_dom (S fuel) doc m base h = Ret 1 (h ++ [None])
  /\ live (h ++ [None]) = live h.
Proof.
  intros He Hn Hu. split; [|apply live_snoc_None].
  destruct (parse_cases doc) as [[Hnil _]|(node & Hf & Hl)]; [congruence|].
  rewrite Hl. rewrite He in Hf.
  apply elements_from_cons in Hf as (l & -> & <-).
  simpl. unfold bind at 1. unfold asset_body. rewrite Hn. simpl.
  unfold bind at 1. simpl. rewrite read_UUID_asset_uuid, Hu.
  unfold bind at 1. simpl. rewrite list_lookup_middle by done.
  by rewrite insert_snoc.
Qed.

Lemma get_child_None l tag :
  child (focus l) tag = None -> xml_get_child_element_by_name l tag = None.
Proof.
  rewrite <- get_child_focus. by destruct (xml_get_child_element_by_name l tag).
Qed.

Lemma get_child_Some l tag c :
  child (focus l) tag = Some c ->
  exists l', xml_get_child_element_by_name l tag = Some l' /\ focus l' = c.
Proof.
  rewrite <- get_child_focus.
  destruct (xml_get_child_element_by_name l tag) as [l'|]; [|done].
  intros [= <-]. eauto.
Qed.

Lemma set_uuid_fresh h u :
  set_uuid (length h) u (h ++ [Some (BAssetLocator None None)])
  = Ret tt (h ++ [Some (BAssetLocator (Some u) None)]).
Proof.
  unfold set_uuid, load_locator, bind, load, store.
  rewrite list_lookup_middle by done. simpl.
  rewrite list_lookup_middle by done. by rewrite insert_snoc.
Qed.

(** X8: when the first element child of [AssetList] is an [Asset] with a
    decodable [Id] but without [ChunkList], or without [Chunk] in it, the
    parser returns [AVERROR_INVALIDDATA] and the heap is the one before
    the call with one more live block, the locator holding the UUID. *)
Theorem missing_chunk_returns_with_the_locator_live
    doc n rest u fuel m base h :
  asset_elements doc = n :: rest ->
  av_strcasecmp (name n) "Asset" = 0 ->
  asset_uuid n = Some u ->
  child n "ChunkList" ≫= (fun cl => child cl "Chunk") = None ->
  parse_imf_asset_map_from_xml_dom (S fuel) doc m base h
  = Ret AVERROR_INVALIDDATA (h ++ [Some (BAssetLocator (Some u) None)])
  /\ live (h ++ [Some (BAssetLocator (Some u) None)]) = S (live h).
Proof.
  intros He Hn Hu Hc. split; [|apply live_snoc_Some].
  destruct (parse_cases doc) as [[Hnil _]|(node & Hf & Hl)]; [congruence|].
  rewrite Hl. rewrite He in Hf.
  apply elements_from_cons in Hf as (l & -> & <-).
  simpl. unfold bind at 1. unfold asset_body. rewrite Hn. simpl.
  unfold bind at 1. simpl. rewrite read_UUID_asset_uuid, Hu.
  unfold bind at 1. rewrite set_uuid_fresh.
  destruct (child (focus l) "ChunkList") as [cl|] eqn:Ecl; simpl in Hc.
  - apply get_child_Some in Ecl as (l1 & -> & <-).
    by rewrite (get_child_None _ _ Hc).
  - by rewrite (get_child_None _ _ Ecl).
Qed.

(** Forward reading of the primitives. *)

Lemma bind_eq {A B} (c : M A) (k : A -> M B) h a h1 :
  c h = Ret a h1 -> bind c k h = k a h1.
Proof. unfold bind. by intros ->. Qed.

Lemma load_cstr_eq h p s : cstr_at h p = Some s -> load_cstr p h = Ret (Some s) h.
Proof.
  destruct p as [a|]; [|done]. simpl. unfold bind, load.
  destruct (h !! a) as [[[]|]|]; try done. by intros [= ->].
Qed.

Lemma strdup_eq h p s :
  cstr_at h p = Some s ->
  strdup p h = Ret (Some (length h)) (h ++ [Some (BString s)]).
Proof. intros H. unfold strdup. by rewrite (bind_eq _ _ _ _ _ (load_cstr_eq _ _ _ H)). Qed.

Lemma set_absolute_uri_eq h a u s0 s :
  h !! a = Some (Some (BAssetLocator u s0)) ->
  set_absolute_uri a s h = Ret tt (<[a := Some (BAssetLocator u s)]> h).
Proof.
  intros H. unfold set_absolute_uri, load_locator, bind, load, store.
  rewrite H. simpl. by rewrite H.
Qed.

Lemma av_free_eq h a b :
  h !! a = Some (Some b) -> av_free (Some a) h = Ret tt (<[a := None]> h).
Proof. intros H. simpl. by rewrite H. Qed.

Lemma load_asset_map_eq h m arr cnt :
  h !! m = Some (Some (BAssetMap arr cnt)) ->
  load_asset_map (Some m) h = Ret (arr, cnt) h.
Proof. intros H. simpl. unfold bind, load. by rewrite H. Qed.

Lemma av_realloc_eq h p size slots :
  slots_at h p = Some slots ->
  av_realloc p size h
  = Ret (Some (length h))
      (freed p h
       ++ [Some (BAssetArray size
                   (resize (Z.to_nat (size / sizeof_ptr)) None slots))]).
Proof.
  destruct p as [old|]; simpl.
  - destruct (h !! old) as [[[]|]|] eqn:E; try done. intros [= ->].
    unfold av_realloc, bind, load. rewrite E. simpl. rewrite E.
    by rewrite length_insert.
  - intros [= <-]. unfold av_realloc, bind, av_malloc, ret.
    by rewrite resize_nil.
Qed.

Lemma view_shape h m es :
  registry_view h m = Some es ->
  exists arr cnt slots,
    h !! m = Some (Some (BAssetMap arr cnt))
    /\ cnt = Z.of_nat (length es)
    /\ slots_at h arr = Some slots.
Proof.
  unfold registry_view.
  destruct (h !! m) as [[[arr cnt|? ?|? ?|?|]|]|] eqn:Em; try done.
  destruct arr as [a|].
  - destruct (h !! a) as [[[? ?|bytes slots|? ?|?|]|]|] eqn:Ea; try done.
    destruct (_ && _) eqn:Hc; [|done].
    apply andb_true_iff in Hc as [H0 Hc].
    apply Z.leb_le in H0. apply Nat.leb_le in Hc.
    intros Hm. apply length_mapM in Hm. rewrite length_take in Hm.
    exists (Some a), cnt, slots. simpl. rewrite Ea.
    split; [done|]. split; [lia|done].
  - destruct (cnt =? 0) eqn:Hc; [|done]. apply Z.eqb_eq in Hc as ->.
    intros [= <-]. by exists None, 0, [].
Qed.

Lemma grow_push_returns h m arr cnt slots asset :
  h !! m = Some (Some (BAssetMap arr cnt)) ->
  slots_at h arr = Some slots ->
  0 <= cnt <= 2 ->
  exists h2,
    (let* _ := grow_assets (Some m) in push_asset (Some m) asset) h = Ret tt h2.
Proof.
  intros Em Hs Hc.
  assert (Lm : (m < length h)%nat) by (by eapply lookup_lt_Some).
  assert (Hm : freed arr h !! m = Some (Some (BAssetMap arr cnt))).
  { destruct arr as [old|]; simpl; [|done].
    rewrite list_lookup_insert_ne; [done|].
    intros ->. simpl in Hs. by rewrite Em in Hs. }
  assert (G : grow_assets (Some m) h
              = Ret tt (<[m := Some (BAssetMap (Some (length h)) cnt)]>
                          (freed arr h
                           ++ [Some (BAssetArray (cnt + 1 * sizeof_IMFAssetLocator)
                                 (resize (Z.to_nat ((cnt + 1 * sizeof_IMFAssetLocator)
                                                    / sizeof_ptr)) None slots))]))).
  { unfold grow_assets.
    rewrite (bind_eq _ _ _ _ _ (load_asset_map_eq _ _ _ _ Em)).
    rewrite (bind_eq _ _ _ _ _ (av_realloc_eq _ _ _ _ Hs)).
    simpl. unfold store.
    by rewrite lookup_app_l, Hm by (by rewrite length_freed). }
  rewrite (bind_eq _ _ _ _ _ G).
  unfold push_asset.
  erewrite bind_eq.
  2:{ apply load_asset_map_eq. apply list_lookup_insert_eq.
      rewrite length_app, length_freed. lia. }
  simpl. unfold bind at 1. unfold load.
  rewrite list_lookup_insert_ne by lia.
  rewrite list_lookup_middle by (by rewrite length_freed).
  replace (0 <=? cnt) with true by (symmetry; apply Z.leb_le; lia).
  replace ((cnt + 1) * sizeof_ptr <=? cnt + 1 * sizeof_IMFAssetLocator)
    with true
    by (symmetry; apply Z.leb_le; unfold sizeof_IMFAssetLocator, sizeof_ptr; lia).
  simpl. unfold bind, store.
  rewrite list_lookup_insert_ne by lia.
  rewrite list_lookup_middle by (by rewrite length_freed).
  rewrite list_lookup_insert_ne by lia.
  rewrite list_lookup_insert_eq
    by (repeat first [rewrite length_insert | rewrite length_app
                     | rewrite length_freed]; simpl; lia).
  eauto.
Qed.

Lemma asset_body_appends node m base h es bs e :
  registry_view h m = Some es ->
  (length es <= 2)%nat ->
  cstr_at h base = Some bs ->
  av_strcasecmp (name (focus node)) "Asset" = 0 ->
  asset_entry bs (focus node) = Some e ->
  exists h',
    asset_body node (Some m) base h = Ret (Next (xmlNextElementSibling node)) h'
    /\ registry_view h' m = Some (es ++ [e])
    /\ keeps h h'.
Proof.
  intros V Hlen B Hn He.
  assert (R : exists s h', asset_body node (Some m) base h = Ret s h').
  { destruct (view_shape _ _ _ V) as (arr & cnt & slots & Em & Hc & Hs).
    unfold asset_entry in He.
    destruct (asset_uuid (focus node)) as [u|] eqn:Eu; [|done].
    destruct (asset_path (focus node)) as [p|] eqn:Ep; [|done].
    unfold asset_path in Ep.
    destruct (child (focus node) "ChunkList") as [cl|] eqn:E1; [|done].
    apply get_child_Some in E1 as (node1 & E1 & <-).
    destruct (child (focus node1) "Chunk") as [ch|] eqn:E2; [|done].
    apply get_child_Some in E2 as (node2 & E2 & <-).
    destruct (child (focus node2) "Path") as [pn|] eqn:E3; [|done].
    apply get_child_Some in E3 as (pl & E3 & <-). injection Ep as <-.
    unfold asset_body. rewrite Hn. simpl.
    unfold bind at 1. simpl. rewrite read_UUID_asset_uuid, Eu.
    unfold bind at 1. rewrite set_uuid_fresh. rewrite E1, E2, E3.
    set (h2 := h ++ [Some (BAssetLocator (Some u) None)]).
    assert (L2 : length h2 = S (length h)) by (subst h2; len).
    set (P := node_text (focus pl)).
    rewrite (bind_eq _ _ h2 (Some (length h2)) (h2 ++ [Some (BString P)]))
      by reflexivity.
    set (h3 := h2 ++ [Some (BString P)]).
    assert (A3 : agree_below h h3) by (subst h3 h2; below).
    rewrite (bind_eq _ _ _ _ _
               (load_cstr_eq _ _ _
                  (keeps_cstr_at _ _ _ _ (agree_below_keeps _ _ A3) B))).
    assert (C3 : cstr_at h3 (Some (length h2)) = Some P).
    { subst h3. simpl. by rewrite list_lookup_middle. }
    rewrite (bind_eq _ _ _ _ _ (load_cstr_eq _ _ _ C3)).
    rewrite (bind_eq _ _ h3 (Some (length h3))
               (h3 ++ [Some (BString (resolve_path bs P))]))
      by reflexivity.
    set (h4 := h3 ++ [Some (BString (resolve_path bs P))]).
    assert (C4 : cstr_at h4 (Some (length h3)) = Some (resolve_path bs P)).
    { subst h4. simpl. by rewrite list_lookup_middle. }
    rewrite (bind_eq _ _ _ _ _ (strdup_eq _ _ _ C4)).
    set (h5 := h4 ++ [Some (BString (resolve_path bs P))]).
    assert (E5 : h5 !! length h = Some (Some (BAssetLocator (Some u) None))).
    { subst h5 h4 h3 h2. rewrite !lookup_app_l by len.
      by rewrite list_lookup_middle. }
    rewrite (bind_eq _ _ _ _ _ (set_absolute_uri_eq _ _ _ _ _ E5)).
    set (h6 := <[length h := _]> h5).
    assert (E6 : h6 !! length h3 = Some (Some (BString (resolve_path bs P)))).
    { subst h6 h5 h4. rewrite list_lookup_insert_ne by (subst h3; len).
      rewrite lookup_app_l by len. by rewrite list_lookup_middle. }
    rewrite (bind_eq _ _ _ _ _ (av_free_eq _ _ _ E6)).
    rewrite (grandparent_of_chunk _ _ _ E1 E2).
    set (h7 := <[length h3 := None]> h6).
    assert (A7 : agree_below h h7) by (subst h7 h6 h5 h4 h3 h2; below).
    assert (Lm : (m < length h)%nat) by (by eapply lookup_lt_Some).
    assert (Em7 : h7 !! m = Some (Some (BAssetMap arr cnt)))
      by (by rewrite A7).
    assert (Hs7 : slots_at h7 arr = Some slots).
    { destruct arr as [a|]; [|done]. simpl in *.
      destruct (h !! a) eqn:Ea; [|done]. rewrite A7, Ea; [done|].
      by eapply lookup_lt_Some. }
    destruct (grow_push_returns h7 m arr cnt slots (length h) Em7 Hs7) as [h9 G];
      [lia|].
    apply bind_Ret in G as (x & h8 & G1 & G2). destruct x.
    rewrite (bind_eq _ _ _ _ _ G1), (bind_eq _ _ _ _ _ G2). eauto. }
  destruct R as (s & h' & R).
  destruct (asset_body_spec _ _ _ _ _ _ _ _ V B R) as [K Hs].
  pose proof (asset_body_shape _ _ _ _ _ _ R) as Sh.
  destruct s as [r|node'].
  - destruct Hs as (_ & _ & Hnone). congruence.
  - destruct Sh as [(Hf & _)|(_ & -> & Hl)].
    { unfold is_asset in Hf. rewrite Hn in Hf. done. }
    destruct Hs as [[_ ->]|(e' & He' & V' & _)]; [lia|].
    exists h'. rewrite He in He'. injection He' as <-. done.
Qed.

Lemma asset_loop_succeeds m base bs elems : forall node fuel h es added,
  elements_from node = elems ->
  Forall (fun n => av_strcasecmp (name n) "Asset" = 0) elems ->
  Forall2 (fun n e => asset_entry bs n = Some e) elems added ->
  registry_view h m = Some es ->
  (length es + length elems <= 3)%nat ->
  cstr_at h base = Some bs ->
  (length elems <= fuel)%nat ->
  exists h',
    asset_loop fuel node (Some m) base h = Ret 0 h'
    /\ registry_view h' m = Some (es ++ added)
    /\ keeps h h'.
Proof.
  induction elems as [|n elems IH]; intros node fuel h es added Hf Ha F V L B Hfuel.
  - destruct node; [done|]. apply Forall2_nil_inv_l in F as ->.
    exists h. rewrite asset_loop_None, app_nil_r.
    split; [done|]. split; [done|apply keeps_refl].
  - apply elements_from_cons in Hf as Hl. destruct Hl as (l & -> & <-).
    apply Forall2_cons_inv_l in F as (e & added' & He & F & ->).
    apply Forall_cons in Ha as [Hn Ha].
    destruct fuel as [|fuel]; [simpl in Hfuel; lia|].
    destruct (asset_body_appends l m base h es bs e V) as (h1 & R & V1 & K1);
      [simpl in L; lia|done..|].
    simpl. rewrite (bind_eq _ _ _ _ _ R).
    destruct (IH (xmlNextElementSibling l) fuel h1 (es ++ [e]) added')
      as (h' & R' & V' & K'); try done.
    + rewrite next_sibling_elements, Hf. done.
    + rewrite length_app. simpl in *. lia.
    + by eapply keeps_cstr_at.
    + simpl in Hfuel. lia.
    + exists h'. rewrite <- app_assoc in V'.
      split; [done|]. split; [done|by eapply keeps_trans].
Qed.

(** X1: from a registry of [es] entries, a document whose [AssetList] has
    at least one element child, all of them [Asset]s with an entry, is
    parsed to the end when registry and children together are at most
    three and the fuel covers the children: the parser returns 0 and the
    registry holds [es] followed by the entries of the children, in
    document order; no string or locator that was live is changed. *)
Theorem up_to_three_assets_are_registered
    fuel doc m base h es bs n rest added :
  asset_elements doc = n :: rest ->
  Forall (fun x => av_strcasecmp (name x) "Asset" = 0) (n :: rest) ->
  Forall2 (fun x e => asset_entry bs x = Some e) (n :: rest) added ->
  registry_view h m = Some es ->
  (length es + length (n :: rest) <= 3)%nat ->
  cstr_at h base = Some bs ->
  (length (n :: rest) <= fuel)%nat ->
  exists h',
    parse_imf_asset_map_from_xml_dom fuel doc (Some m) base h = Ret 0 h'
    /\ registry_view h' m = Some (es ++ added)
    /\ keeps h h'.
Proof.
  intros He Ha F V L B Hfuel.
  destruct (parse_cases doc) as [[Hnil _]|(node & Hf & Hl)]; [congruence|].
  rewrite Hl. rewrite He in Hf. by eapply asset_loop_succeeds.
Qed.

(** X6: whenever the parser returns, [asset_count] is the number of
    entries the registry held plus the number [k] of entries appended;
    [k] is at most the number of element children of [AssetList], and is
    that number when the parser returns 0. *)
Theorem count_follows_the_entries fuel doc m base h r h' es bs :
  registry_view h m = Some es ->
  cstr_at h base = Some bs ->
  parse_imf_asset_map_from_xml_dom fuel doc (Some m) base h = Ret r h' ->
  exists arr k,
    h' !! m = Some (Some (BAssetMap arr (Z.of_nat (length es + k))))
    /\ (k <= length (asset_elements doc))%nat
    /\ (r = 0 -> k = length (asset_elements doc)).
Proof.
  intros V B H.
  destruct (parse_spec _ _ _ _ _ _ _ _ _ V B H)
    as (k & added & (F & H0 & _) & V' & _).
  destruct (view_shape _ _ _ V') as (arr & cnt & slots & Em & -> & _).
  apply Forall2_length in F. rewrite length_take in F.
  exists arr, (length added). rewrite length_app in Em.
  split; [done|]. split; [lia|]. intros Hr. specialize (H0 Hr). lia.
Qed.

Lemma tombstones_snoc ps p h :
  tombstones (ps ++ [p]) h = <[p := None]> (tombstones ps h).
Proof. unfold tombstones. by rewrite fold_left_app. Qed.

Lemma tombstones_lookup_notin ps h x :
  x ∉ ps -> tombstones ps h !! x = h !! x.
Proof.
  induction ps as [|p ps IH] using rev_ind; [done|].
  intros Hx. apply not_elem_of_app in Hx as [Hx Hp].
  rewrite tombstones_snoc, list_lookup_insert_ne; [by apply IH|].
  intros ->. apply Hp. by constructor.
Qed.

Lemma length_tombstones ps h : length (tombstones ps h) = length h.
Proof.
  induction ps as [|p ps IH] using rev_ind; [done|].
  by rewrite tombstones_snoc, length_insert.
Qed.

Lemma load_eq h a b : h !! a = Some (Some b) -> load a h = Ret b h.
Proof. intros H. unfold load. by rewrite H. Qed.

Lemma free_assets_S n i am :
  free_assets (S n) i am
  = (let* (arr, cnt) := load_asset_map am in
     if i <? cnt then
       match arr with
       | None => fault
       | Some a =>
           let* b := load a in
           match b with
           | BAssetArray bytes slots =>
               if (0 <=? i) && ((i + 1) * sizeof_ptr <=? bytes) then
                 match slots !! Z.to_nat i with
                 | Some (Some p) =>
                     let* _ := av_free (Some p) in
                     free_assets n (i + 1) am
                 | _ => fault
                 end
               else fault
           | _ => fault
           end
       end
     else ret tt).
Proof. reflexivity. Qed.

Section Release.
Variables (h : Heap) (m a : addr) (cnt bytes : Z)
          (slots : list (option addr)) (ps : list addr).
Hypothesis Hm : h !! m = Some (Some (BAssetMap (Some a) cnt)).
Hypothesis Ha : h !! a = Some (Some (BAssetArray bytes slots)).
Hypothesis Hslots : take (Z.to_nat cnt) slots = Some <$> ps.
Hypothesis Hcnt : cnt = Z.of_nat (length ps).
Hypothesis Hbytes : cnt * sizeof_ptr <= bytes.
Hypothesis Hnodup : NoDup ps.
Hypothesis Hloc : Forall (is_locator h) ps.

Lemma registry_not_a_locator : (m ∉ ps) /\ (a ∉ ps).
Proof.
  rewrite Forall_forall in Hloc.
  split; intros Hin; destruct (Hloc _ Hin) as (u & s & E); congruence.
Qed.

Lemma free_assets_spec n : forall i,
  (i + n = length ps)%nat ->
  free_assets n (Z.of_nat i) (Some m) (tombstones (take i ps) h)
  = Ret tt (tombstones ps h).
Proof.
  destruct registry_not_a_locator as [Hmp Hap].
  induction n as [|n IH]; intros i Hi.
  - simpl. by rewrite take_ge by lia.
  - assert (Hlt : (i < length ps)%nat) by lia.
    destruct (lookup_lt_is_Some_2 ps i Hlt) as [p Hp].
    assert (Hmi : m ∉ take i ps).
    { intros (j & Hj & _)%elem_of_take. apply Hmp.
      by eapply list_elem_of_lookup_2. }
    assert (Hai : a ∉ take i ps).
    { intros (j & Hj & _)%elem_of_take. apply Hap.
      by eapply list_elem_of_lookup_2. }
    assert (Hpi : p ∉ take i ps).
    { intros (j & Hj & Hji)%elem_of_take.
      pose proof (NoDup_lookup _ _ _ _ Hnodup Hj Hp). lia. }
    assert (Hsi : slots !! i = Some (Some p)).
    { rewrite <- (lookup_take_lt slots (Z.to_nat cnt)) by lia.
      by rewrite Hslots, list_lookup_fmap, Hp. }
    rewrite Forall_forall in Hloc.
    destruct (Hloc p (list_elem_of_lookup_2 _ _ _ Hp)) as (u & s & Elp).
    rewrite free_assets_S.
    erewrite bind_eq
      by (apply load_asset_map_eq; rewrite tombstones_lookup_notin; done).
    lazy beta iota.
    replace (Z.of_nat i <? cnt) with true by (symmetry; apply Z.ltb_lt; lia).
    erewrite bind_eq
      by (apply load_eq; rewrite tombstones_lookup_notin; done).
    lazy beta iota.
    replace (0 <=? Z.of_nat i) with true by (symmetry; apply Z.leb_le; lia).
    replace ((Z.of_nat i + 1) * sizeof_ptr <=? bytes) with true
      by (symmetry; apply Z.leb_le; unfold sizeof_ptr in *; lia).
    rewrite Nat2Z.id, Hsi. change (true && true) with true. lazy beta iota.
    erewrite bind_eq
      by (eapply av_free_eq; rewrite tombstones_lookup_notin; [exact Elp|done]).
    rewrite <- tombstones_snoc, <- (take_S_r _ _ _ Hp).
    replace (Z.of_nat i + 1) with (Z.of_nat (S i)) by lia.
    apply IH. lia.
Qed.

Lemma imf_asset_map_free_spec :
  imf_asset_map_free (Some m) h = Ret tt (tombstones (ps ++ [a; m]) h).
Proof.
  destruct registry_not_a_locator as [Hmp Hap].
  assert (Hma : m <> a) by (intros ->; congruence).
  assert (Lm : (m < length h)%nat) by (by eapply lookup_lt_Some).
  pose proof (free_assets_spec (length ps) 0%nat eq_refl) as F. simpl in F.
  unfold imf_asset_map_free.
  rewrite (bind_eq _ _ _ _ _ (load_asset_map_eq _ _ _ _ Hm)).
  lazy beta iota. replace (Z.to_nat cnt) with (length ps) by lia.
  rewrite (bind_eq _ _ _ _ _ F).
  erewrite bind_eq
    by (apply load_asset_map_eq; rewrite tombstones_lookup_notin; [exact Hm|done]).
  lazy beta iota.
  erewrite bind_eq
    by (eapply av_free_eq; rewrite tombstones_lookup_notin; [exact Ha|done]).
  unfold store_asset_map, bind, store. simpl.
  rewrite list_lookup_insert_ne, tombstones_lookup_notin, Hm by done.
  rewrite list_lookup_insert_eq by (by rewrite length_insert, length_tombstones).
  rewrite list_insert_insert_eq.
  replace (ps ++ [a; m]) with ((ps ++ [a]) ++ [m]) by (by rewrite <- app_assoc).
  by rewrite !tombstones_snoc.
Qed.

End Release.

Lemma tombstones_lookup_in ps h x :
  x ∈ ps -> (x < length h)%nat -> tombstones ps h !! x = Some None.
Proof.
  induction ps as [|p ps IH] using rev_ind; [by intros ?%elem_of_nil|].
  intros Hx Hl. rewrite tombstones_snoc.
  destruct (decide (p = x)) as [->|Hne].
  - apply list_lookup_insert_eq. by rewrite length_tombstones.
  - rewrite list_lookup_insert_ne by done. apply IH; [|done].
    apply elem_of_app in Hx as [Hx|Hx%list_elem_of_singleton]; [done|congruence].
Qed.

(** X10: [imf_asset_map_free] on a registry whose first [asset_count]
    slots point to distinct live locators frees those locators, the array
    and the registry, and nothing else: every other cell is unchanged, so
    the [absolute_uri] strings of the entries stay allocated. *)
Theorem release_frees_registry_array_and_locators
    h m a cnt bytes slots ps :
  h !! m = Some (Some (BAssetMap (Some a) cnt)) ->
  h !! a = Some (Some (BAssetArray bytes slots)) ->
  take (Z.to_nat cnt) slots = Some <$> ps ->
  cnt = Z.of_nat (length ps) ->
  cnt * sizeof_ptr <= bytes ->
  NoDup ps ->
  Forall (is_locator h) ps ->
  let h' := tombstones (ps ++ [a; m]) h in
  imf_asset_map_free (Some m) h = Ret tt h'
  /\ (forall x, x ∈ ps ++ [a; m] -> h' !! x = Some None)
  /\ (forall x, x ∉ ps ++ [a; m] -> h' !! x = h !! x)
  /\ (forall x s, h !! x = Some (Some (BString s)) ->
                  h' !! x = Some (Some (BString s))).
Proof.
  intros Hm Ha Hs Hc Hb Hn Hl h'.
  split; [by eapply imf_asset_map_free_spec|].
  assert (In : forall x, x ∈ ps ++ [a; m] ->
                 exists b, h !! x = Some (Some b) /\ kept b = false
                           \/ is_locator h x).
  { intros x [Hx|Hx]%elem_of_app.
    - exists BOpaque. right. rewrite Forall_forall in Hl. auto.
    - apply elem_of_cons in Hx as [->|Hx].
      + eexists. left. eauto.
      + apply list_elem_of_singleton in Hx as ->. eexists. left. eauto. }
  split; [|split].
  - intros x Hx. apply tombstones_lookup_in; [done|].
    destruct (In x Hx) as (b & [[E _]|(u & s & E)]); by eapply lookup_lt_Some.
  - intros x Hx. by apply tombstones_lookup_notin.
  - intros x s Hx. subst h'. rewrite tombstones_lookup_notin; [done|].
    intros Hin. destruct (In x Hin) as (b & [[E K]|(u & s' & E)]).
    + rewrite Hx in E. injection E as <-. done.
    + congruence.
Qed.

(** X11: after any [imf_asset_map_free] that returned, a second one on the
    same pointer is undefined; and [imf_close] leaves [asset_map] in the
    context as it was, so a second [imf_close] is undefined as well. *)
Theorem released_registry_cannot_be_released_again m h u h' :
  imf_asset_map_free (Some m) h = Ret u h' ->
  imf_asset_map_free (Some m) h' = Fault
  /\ forall c r c1 h1,
       asset_map c = Some m ->
       imf_close c h = Ret (r, c1) h1 ->
       asset_map c1 = Some m /\ imf_close c1 h1 = Fault.
Proof.
  assert (Again : forall h0, h0 !! m = Some None ->
                    imf_asset_map_free (Some m) h0 = Fault).
  { intros h0 E. unfold imf_asset_map_free, load_asset_map, bind, load.
    by rewrite E. }
  intros H. split; [by eapply Again, imf_asset_map_free_releases|].
  intros c r c1 h1 Hc Hclose.
  destruct (imf_close_releases _ _ _ _ _ Hclose) as (_ & Hc1 & Hrel).
  split; [congruence|].
  unfold imf_close in Hclose.
  mstep Hclose as x1 h2 E1. mstep Hclose as x2 h3 E2.
  mstep Hclose as x3 h4 E3. apply ret_Ret in Hclose as [[= _ ->] ->].
  unfold imf_close, bind. simpl. rewrite Hc. rewrite (Again h4); [done|].
  by apply Hrel.
Qed.

(** X13: when the context has no registry, [imf_close] returns 0 and
    clears [avio_opts] and [base_url], so that closing again changes
    nothing. *)
Theorem close_without_registry_is_idempotent c h r c1 h1 :
  asset_map c = None ->
  imf_close c h = Ret (r, c1) h1 ->
  r = 0 /\ imf_close c1 h1 = Ret (0, c1) h1.
Proof.
  intros Hc H. unfold imf_close in H.
  mstep H as x1 h2 E1. mstep H as x2 h3 E2. mstep H as x3 h4 E3.
  apply ret_Ret in H as [[= -> ->] ->]. split; [done|].
  rewrite Hc in E3. apply ret_Ret in E3 as [_ ->].
  unfold imf_close. simpl. by rewrite Hc.
Qed.

(** X14: [imf_read_header] returns 0 or a negative value: a positive
    value of [parse_assetmap] (the parser's 1) is turned into 0. *)
Theorem open_never_returns_a_positive_value fuel env url c h r c1 h1 :
  imf_read_header fuel env url c h = Ret (r, c1) h1 ->
  r <= 0.
Proof.
  unfold imf_read_header. intros H.
  destruct (cpl_result env <? 0) eqn:Hcpl.
  - mstep H as rc h2 E1. destruct rc as [r1 c2].
    apply ret_Ret in H as [[= -> ->] ->]. apply Z.ltb_lt in Hcpl. lia.
  - mstep H as p h2 E1. mstep H as path h3 E2.
    mstep H as rc h4 E3. destruct rc as [r3 c3].
    destruct (r3 <? 0) eqn:Hneg.
    + mstep H as rc h5 E4. destruct rc as [r4 c4].
      apply ret_Ret in H as [[= -> ->] ->]. apply Z.ltb_lt in Hneg. lia.
    + apply ret_Ret in H as [[= -> ->] ->]. lia.
Qed.

(** X12: [imf_asset_map_alloc] followed by [imf_asset_map_free] returns,
    whatever the heap, and leaves it with one freed cell more and the same
    number of live blocks. *)
Theorem alloc_then_free_is_balanced h :
  (let* p := imf_asset_map_alloc in imf_asset_map_free p) h
  = Ret tt (h ++ [None])
  /\ live (h ++ [None]) = live h.
Proof.
  split; [|apply live_snoc_None].
  rewrite (bind_eq _ _ h (Some (length h)) (h ++ [Some (BAssetMap None 0)]))
    by reflexivity.
  assert (E : (h ++ [Some (BAssetMap None 0)]) !! length h
              = Some (Some (BAssetMap None 0)))
    by (by apply list_lookup_middle).
  unfold imf_asset_map_free.
  rewrite (bind_eq _ _ _ _ _ (load_asset_map_eq _ _ _ _ E)). lazy beta iota.
  rewrite (bind_eq _ _ _ tt (h ++ [Some (BAssetMap None 0)])) by reflexivity.
  rewrite (bind_eq _ _ _ _ _ (load_asset_map_eq _ _ _ _ E)). lazy beta iota.
  rewrite (bind_eq _ _ _ tt (h ++ [Some (BAssetMap None 0)])) by reflexivity.
  unfold store_asset_map, bind, store. rewrite E, insert_snoc. simpl.
  by rewrite list_lookup_middle, insert_snoc.
Qed.

(** X15: when the Asset Map file cannot be opened, or read to its end, or
    is empty, [parse_assetmap] returns a negative value without calling
    the parser; it has by then allocated the base directory and an empty
    registry and stored both in the context. *)
Theorem stream_failure_leaves_an_empty_registry
    fuel env c url in_given h s :
  cstr_at h url = Some s ->
  (in_given = false /\ avio_open2_result env < 0)
  \/ avio_read_result env < 0
  \/ (avio_read_result env = 0
      /\ (avio_feof_result env = false \/ buf_len env = 0)) ->
  exists r c1 h1,
    parse_assetmap fuel env c url in_given h = Ret (r, c1) h1
    /\ r < 0
    /\ h1 = h ++ [Some (BString (av_dirname s)); Some (BAssetMap None 0)]
    /\ base_url c1 = Some (length h)
    /\ asset_map c1 = Some (S (length h))
    /\ registry_view h1 (S (length h)) = Some [].
Proof.
  intros Hu Hfail. unfold parse_assetmap.
  rewrite (bind_eq _ _ _ _ _ (load_cstr_eq _ _ _ Hu)).
  unfold imf_asset_map_alloc, bind, av_malloc, ret. simpl.
  rewrite length_app. simpl. rewrite Nat.add_1_r, <- app_assoc. simpl.
  assert (V : registry_view
                (h ++ [Some (BString (av_dirname s)); Some (BAssetMap None 0)])
                (S (length h)) = Some []).
  { unfold registry_view.
    rewrite (list_lookup_middle (h ++ [_]) [] _ (S (length h)))
      || (rewrite lookup_app_r by lia;
          replace (S (length h) - length h)%nat with 1%nat by lia); done. }
  destruct (negb in_given && (avio_open2_result env <? 0)) eqn:Ho.
  { apply andb_true_iff in Ho as [_ Ho]. apply Z.ltb_lt in Ho.
    eexists _, _, _. split; [done|]. auto. }
  destruct ((avio_read_result env <? 0) || negb (avio_feof_result env)
            || (buf_len env =? 0)) eqn:Hr.
  { eexists _, _, _. split; [done|]. split; [|auto].
    destruct (avio_read_result env =? 0) eqn:Hz; [done|].
    apply Z.eqb_neq in Hz.
    destruct Hfail as [[-> Hlt]|[Hlt|[Hzero _]]]; [|lia..].
    simpl in Ho. apply Z.ltb_ge in Ho. lia. }
  exfalso. apply orb_false_iff in Hr as [Hr Hb].
  apply orb_false_iff in Hr as [Hr He]. apply Z.ltb_ge in Hr.
  apply Z.eqb_neq in Hb. apply negb_false_iff in He.
  destruct Hfail as [[-> Hlt]|[Hlt|[_ [Hf|Hz]]]]; try lia; try congruence.
Qed.

(** X16: when the CPL does not parse and the context holds no pointers
    to release, [imf_read_header] returns the CPL parser's value with heap
    and context untouched: the Asset Map is not looked at. *)
Theorem cpl_failure_leaves_everything_untouched fuel env url c h :
  cpl_result env < 0 ->
  base_url c = None -> avio_opts c = None -> asset_map c = None ->
  imf_read_header fuel env url c h = Ret (cpl_result env, c) h.
Proof.
  intros Hc Hb Ho Hm. unfold imf_read_header.
  replace (cpl_result env <? 0) with true by (symmetry; by apply Z.ltb_lt).
  unfold imf_close, bind. rewrite Hb, Ho, Hm. simpl.
  destruct c; simpl in *; by subst.
Qed.

(** X2: when the CPL parses, no [assetmap] option is set and the Asset Map
    file is read to its end, [imf_read_header] returns 0 for a document of
    one to three [Asset]s with entries: the context then points to the
    path of [ASSETMAP.xml] beside the CPL, to the directory of that path
    as [base_url], and to a registry holding the entries resolved against
    that directory, in document order. *)
Theorem open_registers_up_to_three_assets
    fuel env url c h n rest added :
  let path := resolve_path (av_dirname url) "ASSETMAP.xml" in
  let bs := av_dirname path in
  0 <= cpl_result env ->
  asset_map_path c = None ->
  0 <= avio_open2_result env ->
  0 <= avio_read_result env ->
  avio_feof_result env = true ->
  buf_len env <> 0 ->
  asset_elements (xmlReadMemory_result env) = n :: rest ->
  Forall (fun x => av_strcasecmp (name x) "Asset" = 0) (n :: rest) ->
  Forall2 (fun x e => asset_entry bs x = Some e) (n :: rest) added ->
  (length (n :: rest) <= 3)%nat ->
  (length (n :: rest) <= fuel)%nat ->
  exists c1 h1,
    imf_read_header fuel env url c h = Ret (0, c1) h1
    /\ cstr_at h1 (asset_map_path c1) = Some path
    /\ cstr_at h1 (base_url c1) = Some bs
    /\ asset_map c1 = Some (3 + length h)%nat
    /\ registry_view h1 (3 + length h)%nat = Some added
    /\ keeps h h1.
Proof.
  intros path bs Hcpl Hp Hopen Hread Heof Hlen He Ha F L Hfuel.
  unfold imf_read_header.
  replace (cpl_result env <? 0) with false by (symmetry; by apply Z.ltb_ge).
  rewrite (bind_eq _ _ h (length h) (h ++ [Some BOpaque])) by reflexivity.
  simpl. rewrite Hp.
  rewrite (bind_eq _ _ _ (Some (S (length h)))
             ((h ++ [Some BOpaque]) ++ [Some (BString path)]))
    by (unfold av_append_path_component, bind, av_malloc, ret;
        by rewrite length_app, Nat.add_1_r).
  set (h2 := (h ++ [Some BOpaque]) ++ [Some (BString path)]).
  assert (L2 : length h2 = S (S (length h))) by (subst h2; len).
  assert (C2 : cstr_at h2 (Some (S (length h))) = Some path).
  { subst h2. simpl. by rewrite list_lookup_middle by len. }
  set (h4 := (h2 ++ [Some (BString bs)]) ++ [Some (BAssetMap None 0)]).
  assert (A4 : agree_below h2 h4) by (subst h4; below).
  assert (V4 : registry_view h4 (3 + length h)%nat = Some []).
  { unfold registry_view. subst h4.
    by rewrite list_lookup_middle by len. }
  assert (B4 : cstr_at h4 (Some (2 + length h)%nat) = Some bs).
  { subst h4. simpl. rewrite lookup_app_l by len.
    by rewrite list_lookup_middle by len. }
  destruct (parse_cases (xmlReadMemory_result env))
    as [[Hnil _]|(node & Hf & Hl)]; [congruence|].
  rewrite He in Hf.
  destruct (asset_loop_succeeds (3 + length h)%nat (Some (2 + length h)%nat)
              bs (n :: rest) node fuel h4 [] added Hf Ha F V4)
    as (h' & R & V' & K'); [simpl in *; lia|done|done|].
  assert (P : parse_assetmap fuel env
                {| base_url := base_url c; asset_map_path := Some (S (length h));
                   avio_opts := avio_opts c; cpl := Some (length h);
                   asset_map := asset_map c |}
                (Some (S (length h))) false h2
              = Ret (0, {| base_url := Some (2 + length h)%nat;
                           asset_map_path := Some (S (length h));
                           avio_opts := avio_opts c; cpl := Some (length h);
                           asset_map := Some (3 + length h)%nat |}) h').
  { unfold parse_assetmap.
    rewrite (bind_eq _ _ _ _ _ (load_cstr_eq _ _ _ C2)).
    rewrite (bind_eq _ _ h2 (Some (2 + length h)%nat) (h2 ++ [Some (BString bs)]))
      by (unfold bind, av_malloc, ret; by rewrite L2).
    rewrite (bind_eq _ _ _ (Some (3 + length h)%nat) h4)
      by (unfold imf_asset_map_alloc, bind, av_malloc, ret;
          by rewrite length_app, L2, Nat.add_1_r).
    lazy beta iota zeta.
    replace (avio_open2_result env <? 0) with false
      by (symmetry; by apply Z.ltb_ge).
    replace (avio_read_result env <? 0) with false
      by (symmetry; by apply Z.ltb_ge).
    rewrite Heof. replace (buf_len env =? 0) with false
      by (symmetry; by apply Z.eqb_neq).
    cbn [negb andb orb asset_map base_url].
    by rewrite (bind_eq _ _ _ _ _ (eq_trans (Hl _ _ _ _) R)). }
  assert (K24 : keeps h2 h') by
    (eapply keeps_trans; [by apply agree_below_keeps|done]).
  eexists _, h'. split; [by rewrite (bind_eq _ _ _ _ _ P)|].
  cbn [asset_map_path base_url asset_map].
  split; [exact (keeps_cstr_at _ _ _ _ K24 C2)|].
  split; [exact (keeps_cstr_at _ _ _ _ K' B4)|].
  split; [done|]. split; [done|].
  eapply keeps_trans; [|exact K24].
  apply agree_below_keeps. subst h2. below.
Qed.

Lemma grows_asset_body node m base : grows (asset_body node m base).
Proof.
  unfold asset_body.
  repeat first
    [ apply grows_ret | apply grows_fault | apply grows_av_malloc
    | apply grows_av_free | apply grows_set_uuid
    | apply grows_xmlNodeGetContent | apply grows_load_cstr
    | apply grows_av_append_path_component | apply grows_strdup
    | apply grows_set_absolute_uri | apply grows_grow_assets
    | apply grows_push_asset
    | apply grows_bind; [|intros ?]
    | match goal with |- grows (match ?x with _ => _ end) => destruct x end
    | match goal with |- grows (if ?x then _ else _) => destruct x end ].
Qed.

Lemma grow_push_frame h m arr cnt asset h1 h2 :
  h !! m = Some (Some (BAssetMap arr cnt)) ->
  grow_assets (Some m) h = Ret tt h1 ->
  push_asset (Some m) asset h1 = Ret tt h2 ->
  (forall x, (x < length h)%nat -> x <> m -> arr <> Some x ->
             h2 !! x = h !! x)
  /\ h2 !! m = Some (Some (BAssetMap (Some (length h)) (cnt + 1))).
Proof.
  intros Em G P.
  unfold grow_assets in G. mstep G as ac h0 E. destruct ac as [arr0 cnt0].
  apply load_asset_map_Ret in E as [-> Em0].
  rewrite Em in Em0. injection Em0 as <- <-.
  mstep G as q h0 E. apply av_realloc_Ret in E as (slots & Hs & -> & ->).
  apply store_Ret in G as [-> _].
  assert (Lm : (m < length h)%nat) by (by eapply lookup_lt_Some).
  unfold push_asset in P. mstep P as ac h0 E. destruct ac as [arr' cnt'].
  apply load_asset_map_Ret in E as [-> Em'].
  rewrite list_lookup_insert_eq in Em'
    by (rewrite length_app, length_freed; lia).
  injection Em' as <- <-.
  mstep P as b h0 E. apply load_Ret in E as [-> Ea].
  rewrite list_lookup_insert_ne in Ea by lia.
  rewrite list_lookup_middle in Ea by (by rewrite length_freed).
  injection Ea as <-.
  destruct (_ && _) eqn:Hb in P; [|done].
  mstep P as x0 h0 E. apply store_Ret in E as [-> _].
  apply store_Ret in P as [-> _].
  split.
  - intros x Hx Hxm Hxa.
    rewrite !list_lookup_insert_ne by lia.
    rewrite lookup_app_l by (rewrite length_freed; lia).
    destruct arr as [old|]; simpl; [|done].
    rewrite list_lookup_insert_ne; [done|congruence].
  - apply list_lookup_insert_eq.
    rewrite !length_insert, length_app, length_freed. lia.
Qed.

Lemma asset_body_frame node m base h s h' arr cnt :
  h !! m = Some (Some (BAssetMap arr cnt)) ->
  asset_body node (Some m) base h = Ret s h' ->
  (forall x, (x < length h)%nat -> x <> m -> arr <> Some x ->
             h' !! x = h !! x)
  /\ exists arr' cnt',
       h' !! m = Some (Some (BAssetMap arr' cnt'))
       /\ (arr' = arr \/ exists a, arr' = Some a /\ (length h <= a)%nat).
Proof.
  intros Em H.
  assert (Lm : (m < length h)%nat) by (by eapply lookup_lt_Some).
  assert (Below : forall h1, agree_below h h1 ->
            (forall x, (x < length h)%nat -> x <> m -> arr <> Some x ->
                       h1 !! x = h !! x)
            /\ exists arr' cnt',
                 h1 !! m = Some (Some (BAssetMap arr' cnt'))
                 /\ (arr' = arr
                     \/ exists a, arr' = Some a /\ (length h <= a)%nat)).
  { intros h1 A. split; [intros x Hx _ _; by apply A|].
    exists arr, cnt. rewrite A by done. auto. }
  unfold asset_body in H.
  destruct (negb _).
  { apply ret_Ret in H as [-> ->]. by apply Below. }
  mstep H as asset h1 E. apply av_malloc_Ret in E as [-> ->].
  destruct (xml_read_UUID _) as [u|].
  2:{ mstep H as x h1 E. apply av_free_Ret in E as [-> _].
      apply ret_Ret in H as [-> ->]. apply Below. below. }
  mstep H as x h1 E. unfold set_uuid in E. mstep E as us h0 E0.
  destruct us as [u0 s0]. apply load_locator_Ret in E0 as [-> E0].
  rewrite list_lookup_middle in E0 by done. injection E0 as <- <-.
  apply store_Ret in E as [-> _].
  set (h2 := <[length h:=Some (BAssetLocator (Some u) None)]>
               (h ++ [Some (BAssetLocator None None)])) in *.
  assert (A2 : agree_below h h2) by (subst h2; below).
  assert (L2 : length h2 = S (length h)) by (subst h2; len).
  destruct (xml_get_child_element_by_name node "ChunkList") as [node1|] eqn:E1.
  2:{ apply ret_Ret in H as [-> ->]. by apply Below. }
  destruct (xml_get_child_element_by_name node1 "Chunk") as [node2|] eqn:E2.
  2:{ apply ret_Ret in H as [-> ->]. by apply Below. }
  rewrite (grandparent_of_chunk _ _ _ E1 E2) in H.
  mstep H as uri h3 E.
  mstep H as b0 h4 Eb. apply load_cstr_Ret in Eb as [-> ->].
  mstep H as text h5 Et. apply load_cstr_Ret in Et as [-> ->].
  mstep H as uri' h6 Ea.
  mstep H as dup h7 Ed. unfold strdup in Ed.
  mstep Ed as str h8 Es. apply load_cstr_Ret in Es as [-> ->].
  destruct (xml_get_child_element_by_name node2 "Path") as [pl|]; simpl in E.
  2:{ apply ret_Ret in E as [-> ->]. simpl in Ea.
      destruct (cstr_at h2 base); apply ret_Ret in Ea as [-> ->]; done. }
  mstep E as a h9 E0. apply av_malloc_Ret in E0 as [-> ->].
  apply ret_Ret in E as [-> ->].
  set (P := node_text (focus pl)) in *.
  destruct (cstr_at (h2 ++ [Some (BString P)]) base) as [bs|];
    [|apply ret_Ret in Ea as [-> ->]; done].
  simpl in Ea. rewrite list_lookup_middle in Ea by done. simpl in Ea.
  mstep Ea as a h9 E0. apply av_malloc_Ret in E0 as [-> ->].
  apply ret_Ret in Ea as [-> ->].
  simpl in Ed. rewrite list_lookup_middle in Ed by done.
  mstep Ed as a h9 E0. apply av_malloc_Ret in E0 as [-> ->].
  apply ret_Ret in Ed as [-> ->].
  mstep H as x9 h9 E. unfold set_absolute_uri in E. mstep E as us h10 E0.
  destruct us as [u0 s0]. apply load_locator_Ret in E0 as [-> E0].
  apply store_Ret in E as [-> _].
  mstep H as y h9 E. apply av_free_Ret in E as [-> _].
  mstep H as z h9 Eg. destruct z. mstep H as z h10 Ep. destruct z.
  apply ret_Ret in H as [-> ->].
  match type of Eg with grow_assets _ ?hh = _ => set (h7 := hh) in * end.
  assert (A7 : agree_below h h7) by (subst h7 h2; below).
  assert (L7 : (length h <= length h7)%nat) by (subst h7 h2; len).
  assert (Em7 : h7 !! m = Some (Some (BAssetMap arr cnt))) by (by rewrite A7).
  destruct (grow_push_frame _ _ _ _ _ _ _ Em7 Eg Ep) as [Fr Hm'].
  split.
  - intros q Hx Hxm Hxa. rewrite Fr by (done || lia). by apply A7.
  - exists (Some (length h7)), (cnt + 1). split; [done|]. right. eauto.
Qed.

Lemma asset_loop_frame m base fuel : forall node h r h' arr cnt,
  h !! m = Some (Some (BAssetMap arr cnt)) ->
  asset_loop fuel node (Some m) base h = Ret r h' ->
  (length h <= length h')%nat
  /\ forall x, (x < length h)%nat -> x <> m -> arr <> Some x ->
               h' !! x = h !! x.
Proof.
  induction fuel as [|fuel IH]; intros node h r h' arr cnt Em H.
  - destruct node; [done|]. by apply ret_Ret in H as [-> ->].
  - destruct node as [n|]; simpl in H;
      [|by apply ret_Ret in H as [-> ->]].
    mstep H as s h1 E.
    pose proof (grows_asset_body _ _ _ _ _ _ E) as L1.
    destruct (asset_body_frame _ _ _ _ _ _ _ _ Em E)
      as (Fr & arr' & cnt' & Em1 & Harr).
    destruct s as [r0|node'].
    + by apply ret_Ret in H as [-> ->].
    + destruct (IH _ _ _ _ _ _ Em1 H) as [L' Fr'].
      split; [lia|]. intros x Hx Hxm Hxa.
      rewrite Fr'; [by apply Fr|lia|done|].
      destruct Harr as [->|(a & -> & Hge)]; [done|]. intros [= <-]. lia.
Qed.

(** X3: whenever the parser returns, every block that existed before the
    call is as it was, except the registry block and the [assets] array
    it pointed to; the heap has not shrunk. *)
Theorem parser_touches_only_the_registry
    fuel doc m base h r h' arr cnt :
  h !! m = Some (Some (BAssetMap arr cnt)) ->
  parse_imf_asset_map_from_xml_dom fuel doc (Some m) base h = Ret r h' ->
  (length h <= length h')%nat
  /\ forall x, (x < length h)%nat -> x <> m -> arr <> Some x ->
               h' !! x = h !! x.
Proof.
  intros Em H. destruct (parse_cases doc) as [[_ He]|(node & _ & Hl)].
  - rewrite He in H. by injection H as _ <-.
  - rewrite Hl in H. by eapply asset_loop_frame.
Qed.

(** ** Release of a partially built registry *)

Lemma is_locator_lt h p : is_locator h p -> (p < length h)%nat.
Proof. intros (u & s & E). by eapply lookup_lt_Some. Qed.

Lemma owns_agree_below h h' m arr ps :
  agree_below h h' -> owns h m arr ps -> owns h' m arr ps.
Proof.
  intros A (Em & Hn & Hl & Ha).
  split; [by rewrite A by (by eapply lookup_lt_Some)|].
  split; [done|]. split.
  - eapply Forall_impl; [exact Hl|]. intros p (u & s & E). exists u, s.
    rewrite A; [done|]. by eapply lookup_lt_Some.
  - destruct arr as [a|]; [|done].
    destruct Ha as (bytes & slots & Ea & Ht & Hb).
    exists bytes, slots. by rewrite A by (by eapply lookup_lt_Some).
Qed.

Lemma grow_push_owns h m arr ps asset h1 h2 :
  owns h m arr ps ->
  is_locator h asset ->
  asset ∉ ps ->
  grow_assets (Some m) h = Ret tt h1 ->
  push_asset (Some m) asset h1 = Ret tt h2 ->
  owns h2 m (Some (length h)) (ps ++ [asset]).
Proof.
  intros (Em & Hn & Hl & Ha) Hloc Hnin G P.
  destruct (grow_push_frame _ _ _ _ _ _ _ Em G P) as [Fr Hm2].
  assert (Keep : forall p, is_locator h p -> is_locator h2 p).
  { intros p (u & s & E). exists u, s. rewrite Fr; [done| | |].
    - by eapply lookup_lt_Some.
    - intros ->. congruence.
    - intros ->. destruct Ha as (? & ? & Ea & _). congruence. }
  set (cnt := Z.of_nat (length ps)) in *.
  unfold grow_assets in G. mstep G as ac h0 E. destruct ac as [arr0 cnt0].
  apply load_asset_map_Ret in E as [-> Em0].
  rewrite Em in Em0. injection Em0 as <- <-.
  mstep G as q h0 E. apply av_realloc_Ret in E as (slots & Hs & -> & ->).
  apply store_Ret in G as [-> _].
  assert (Lm : (m < length h)%nat) by (by eapply lookup_lt_Some).
  unfold push_asset in P. mstep P as ac h0 E. destruct ac as [arr' cnt'].
  apply load_asset_map_Ret in E as [-> Em'].
  rewrite list_lookup_insert_eq in Em'
    by (rewrite length_app, length_freed; lia).
  injection Em' as <- <-.
  mstep P as b h0 E. apply load_Ret in E as [-> Ea].
  rewrite list_lookup_insert_ne in Ea by lia.
  rewrite list_lookup_middle in Ea by (by rewrite length_freed).
  injection Ea as <-.
  destruct (_ && _) eqn:Hb in P; [|done].
  apply andb_true_iff in Hb as [H0 Hb]. apply Z.leb_le in H0, Hb.
  mstep P as x0 h0 E. apply store_Ret in E as [-> _].
  apply store_Ret in P as [-> _].
  set (size := cnt + 1 * sizeof_IMFAssetLocator) in *.
  set (n := Z.to_nat (size / sizeof_ptr)) in *.
  assert (Hlt : (length ps < n)%nat).
  { assert (cnt + 1 <= size / sizeof_ptr)
      by (apply Z.div_le_lower_bound; unfold sizeof_ptr in *; lia).
    subst n cnt. lia. }
  assert (Hlen : length (ps ++ [asset]) = S (length ps))
    by (rewrite length_app; simpl; lia).
  split.
  { rewrite Hm2, Hlen. do 3 f_equal. subst cnt. lia. }
  split.
  { apply NoDup_app. split; [done|]. split; [|apply NoDup_singleton].
    intros x Hx ->%list_elem_of_singleton. done. }
  split.
  { apply Forall_app. split.
    - eapply Forall_impl; [exact Hl|]. apply Keep.
    - constructor; [by apply Keep|constructor]. }
  exists size, (<[Z.to_nat cnt:=Some asset]> (resize n None slots)).
  split.
  { rewrite list_lookup_insert_ne by lia.
    apply list_lookup_insert_eq.
    rewrite length_insert, length_app, length_freed. simpl. lia. }
  split; [|rewrite Hlen; subst cnt; lia].
  rewrite Hlen. replace (Z.to_nat cnt) with (length ps) by (subst cnt; lia).
  rewrite take_snoc_insert by (rewrite length_resize; lia).
  rewrite fmap_app. simpl. f_equal.
  destruct arr as [a|]; simpl in Hs.
  - destruct Ha as (bytes & slots' & Ea & Ht & Hbytes).
    rewrite Ea in Hs. injection Hs as <-.
    rewrite <- Ht. rewrite take_resize_le by lia.
    rewrite resize_le; [done|].
    apply (f_equal length) in Ht. rewrite length_take, length_fmap in Ht. lia.
  - injection Hs as <-. by subst ps.
Qed.

Lemma asset_body_owns node m base h s h' arr ps :
  owns h m arr ps ->
  asset_body node (Some m) base h = Ret s h' ->
  exists arr' ps', owns h' m arr' (ps ++ ps').
Proof.
  intros O H.
  assert (Below : forall h1, agree_below h h1 ->
            exists arr' ps', owns h1 m arr' (ps ++ ps')).
  { intros h1 A. exists arr, []. rewrite app_nil_r.
    by eapply owns_agree_below. }
  unfold asset_body in H.
  destruct (negb _).
  { apply ret_Ret in H as [-> ->]. by apply Below. }
  mstep H as asset h1 E. apply av_malloc_Ret in E as [-> ->].
  destruct (xml_read_UUID _) as [u|].
  2:{ mstep H as x h1 E. apply av_free_Ret in E as [-> _].
      apply ret_Ret in H as [-> ->]. apply Below. below. }
  mstep H as x h1 E. unfold set_uuid in E. mstep E as us h0 E0.
  destruct us as [u0 s0]. apply load_locator_Ret in E0 as [-> E0].
  rewrite list_lookup_middle in E0 by done. injection E0 as <- <-.
  apply store_Ret in E as [-> _].
  set (h2 := <[length h:=Some (BAssetLocator (Some u) None)]>
               (h ++ [Some (BAssetLocator None None)])) in *.
  assert (A2 : agree_below h h2) by (subst h2; below).
  assert (L2 : length h2 = S (length h)) by (subst h2; len).
  destruct (xml_get_child_element_by_name node "ChunkList") as [node1|] eqn:E1.
  2:{ apply ret_Ret in H as [-> ->]. by apply Below. }
  destruct (xml_get_child_element_by_name node1 "Chunk") as [node2|] eqn:E2.
  2:{ apply ret_Ret in H as [-> ->]. by apply Below. }
  rewrite (grandparent_of_chunk _ _ _ E1 E2) in H.
  mstep H as uri h3 E.
  mstep H as b0 h4 Eb. apply load_cstr_Ret in Eb as [-> ->].
  mstep H as text h5 Et. apply load_cstr_Ret in Et as [-> ->].
  mstep H as uri' h6 Ea.
  mstep H as dup h7 Ed. unfold strdup in Ed.
  mstep Ed as str h8 Es. apply load_cstr_Ret in Es as [-> ->].
  destruct (xml_get_child_element_by_name node2 "Path") as [pl|]; simpl in E.
  2:{ apply ret_Ret in E as [-> ->]. simpl in Ea.
      destruct (cstr_at h2 base); apply ret_Ret in Ea as [-> ->]; done. }
  mstep E as a h9 E0. apply av_malloc_Ret in E0 as [-> ->].
  apply ret_Ret in E as [-> ->].
  set (P := node_text (focus pl)) in *.
  destruct (cstr_at (h2 ++ [Some (BString P)]) base) as [bs|];
    [|apply ret_Ret in Ea as [-> ->]; done].
  simpl in Ea. rewrite list_lookup_middle in Ea by done. simpl in Ea.
  mstep Ea as a h9 E0. apply av_malloc_Ret in E0 as [-> ->].
  apply ret_Ret in Ea as [-> ->].
  simpl in Ed. rewrite list_lookup_middle in Ed by done.
  mstep Ed as a h9 E0. apply av_malloc_Ret in E0 as [-> ->].
  apply ret_Ret in Ed as [-> ->].
  mstep H as x9 h9 E. unfold set_absolute_uri in E. mstep E as us h10 E0.
  destruct us as [u0 s0]. apply load_locator_Ret in E0 as [-> E0].
  apply store_Ret in E as [-> _].
  mstep H as y h9 E. apply av_free_Ret in E as [-> _].
  mstep H as z h9 Eg. destruct z. mstep H as z h10 Ep. destruct z.
  apply ret_Ret in H as [-> ->].
  match type of Eg with grow_assets _ ?hh = _ => set (h7 := hh) in * end.
  assert (A7 : agree_below h h7) by (subst h7 h2; below).
  assert (Loc : is_locator h7 (length h)).
  { subst h7. eexists _, _.
    rewrite list_lookup_insert_ne by len.
    apply list_lookup_insert_eq. len. }
  exists (Some (length h7)), [length h].
  eapply grow_push_owns; [by eapply owns_agree_below|exact Loc| |exact Eg|exact Ep].
  intros Hin. destruct O as (_ & _ & Hl & _).
  rewrite Forall_forall in Hl. apply Hl, is_locator_lt in Hin. lia.
Qed.

Lemma asset_loop_owns m base fuel : forall node h r h' arr ps,
  owns h m arr ps ->
  asset_loop fuel node (Some m) base h = Ret r h' ->
  exists arr' ps', owns h' m arr' (ps ++ ps').
Proof.
  induction fuel as [|fuel IH]; intros node h r h' arr ps O H.
  - destruct node; [done|]. apply ret_Ret in H as [-> ->].
    exists arr, []. by rewrite app_nil_r.
  - destruct node as [n|]; simpl in H.
    2:{ apply ret_Ret in H as [-> ->]. exists arr, []. by rewrite app_nil_r. }
    mstep H as s h1 E.
    destruct (asset_body_owns _ _ _ _ _ _ _ _ O E) as (arr1 & ps1 & O1).
    destruct s as [r0|node'].
    + apply ret_Ret in H as [-> ->]. eauto.
    + destruct (IH _ _ _ _ _ _ O1 H) as (arr2 & ps2 & O2).
      exists arr2, (ps1 ++ ps2). by rewrite app_assoc.
Qed.

Lemma parse_owns fuel doc m base h r h' arr ps :
  owns h m arr ps ->
  parse_imf_asset_map_from_xml_dom fuel doc (Some m) base h = Ret r h' ->
  exists arr' ps', owns h' m arr' (ps ++ ps').
Proof.
  intros O H.
  destruct (parse_cases doc) as [[_ Hs]|(node & _ & Hl)].
  - rewrite Hs in H. injection H as _ <-. exists arr, [].
    by rewrite app_nil_r.
  - rewrite Hl in H. by eapply asset_loop_owns.
Qed.

(** The entries that the view reads are those behind the owned locators. *)
Lemma view_owns_entries h m arr ps es :
  owns h m arr ps ->
  registry_view h m = Some es ->
  Forall2 (fun p e => read_entry h (Some p) = Some e) ps es.
Proof.
  intros (Em & _ & _ & Ha) V. unfold registry_view in V. rewrite Em in V.
  destruct arr as [a|].
  - destruct Ha as (bytes & slots & Ea & Ht & _). rewrite Ea in V.
    destruct (_ && _); [|done].
    rewrite Nat2Z.id, Ht in V.
    apply mapM_Some in V. by apply Forall2_fmap_l in V.
  - subst ps. simpl in V. injection V as <-. constructor.
Qed.

Lemma owned_registry_is_released h m arr ps :
  owns h m arr ps ->
  imf_asset_map_free (Some m) h
  = Ret tt (tombstones (ps ++ option_list arr ++ [m]) h).
Proof.
  intros (Em & Hn & Hl & Ha). destruct arr as [a|].
  - destruct Ha as (bytes & slots & Ea & Ht & Hb).
    eapply imf_asset_map_free_spec; eauto. by rewrite Nat2Z.id.
  - subst ps. simpl in *. unfold imf_asset_map_free.
    rewrite (bind_eq _ _ _ _ _ (load_asset_map_eq _ _ _ _ Em)).
    lazy beta iota. simpl free_assets.
    unfold bind, ret, load_asset_map, store_asset_map, load, store, av_free.
    simpl. rewrite Em. simpl. rewrite Em.
    rewrite list_lookup_insert_eq by (by eapply lookup_lt_Some).
    by rewrite list_insert_insert_eq.
Qed.

Lemma owns_free_string h m arr ps b s :
  h !! b = Some (Some (BString s)) ->
  owns h m arr ps -> owns (<[b := None]> h) m arr ps.
Proof.
  intros Eb (Em & Hn & Hl & Ha).
  split; [rewrite list_lookup_insert_ne; [done|congruence]|].
  split; [done|]. split.
  - eapply Forall_impl; [exact Hl|]. intros p (u & t & E). exists u, t.
    rewrite list_lookup_insert_ne; [done|congruence].
  - destruct arr as [a|]; [|done].
    destruct Ha as (bytes & slots & Ea & Ht & Hb).
    exists bytes, slots. rewrite list_lookup_insert_ne; [done|congruence].
Qed.

Lemma imf_close_owned c h m arr ps b s :
  avio_opts c = None ->
  base_url c = Some b ->
  asset_map c = Some m ->
  h !! b = Some (Some (BString s)) ->
  owns h m arr ps ->
  imf_close c h
  = Ret (0, {| base_url := None; asset_map_path := asset_map_path c;
               avio_opts := None; cpl := cpl c; asset_map := Some m |})
        (tombstones (b :: ps ++ option_list arr ++ [m]) h).
Proof.
  intros Ho Hb Hm Eb O. unfold imf_close. rewrite Ho, Hb, Hm.
  rewrite (bind_eq _ _ h tt h) by reflexivity.
  rewrite (bind_eq _ _ h tt (<[b := None]> h))
    by (eapply av_free_eq; exact Eb).
  rewrite (bind_eq _ _ _ _ _
             (owned_registry_is_released _ _ _ _
                (owns_free_string _ _ _ _ _ _ Eb O))).
  reflexivity.
Qed.

(** Up to the call of the parser, [parse_assetmap] allocates the directory
    of the Asset Map and an empty registry. *)
Lemma parse_assetmap_reaches_parser fuel env c pp hp s :
  0 <= avio_open2_result env ->
  0 <= avio_read_result env ->
  avio_feof_result env = true ->
  buf_len env <> 0 ->
  cstr_at hp (Some pp) = Some s ->
  parse_assetmap fuel env c (Some pp) false hp
  = match parse_imf_asset_map_from_xml_dom fuel (xmlReadMemory_result env)
            (Some (S (length hp))) (Some (length hp))
            (hp ++ [Some (BString (av_dirname s)); Some (BAssetMap None 0)])
    with
    | Ret r h' =>
        Ret (r, {| base_url := Some (length hp);
                   asset_map_path := asset_map_path c;
                   avio_opts := avio_opts c; cpl := cpl c;
                   asset_map := Some (S (length hp)) |}) h'
    | Fault => Fault
    | OutOfFuel => OutOfFuel
    end.
Proof.
  intros Hopen Hread Heof Hlen C.
  set (h4 := hp ++ [Some (BString (av_dirname s)); Some (BAssetMap None 0)]).
  unfold parse_assetmap.
  rewrite (bind_eq _ _ _ _ _ (load_cstr_eq _ _ _ C)).
  rewrite (bind_eq _ _ hp (Some (length hp))
             (hp ++ [Some (BString (av_dirname s))])) by reflexivity.
  rewrite (bind_eq _ _ _ (Some (S (length hp))) h4)
    by (unfold imf_asset_map_alloc, bind, av_malloc, ret; subst h4;
        by rewrite length_app, Nat.add_1_r, <- app_assoc).
  lazy beta iota zeta.
  replace (avio_open2_result env <? 0) with false
    by (symmetry; by apply Z.ltb_ge).
  replace (avio_read_result env <? 0) with false
    by (symmetry; by apply Z.ltb_ge).
  rewrite Heof. replace (buf_len env =? 0) with false
    by (symmetry; by apply Z.eqb_neq).
  cbn [negb andb orb asset_map base_url].
  unfold bind at 1.
  by destruct (parse_imf_asset_map_from_xml_dom _ _ _ _ h4).
Qed.

(** Up to the call of the parser, the open allocates the CPL, the path of
    the Asset Map unless one was given, its directory and an empty
    registry; it closes the context when the parser returns a negative
    value and returns 0 otherwise. *)
Lemma open_reaches_parser fuel env url c h0 hp pp s :
  0 <= cpl_result env ->
  0 <= avio_open2_result env ->
  0 <= avio_read_result env ->
  avio_feof_result env = true ->
  buf_len env <> 0 ->
  (asset_map_path c = Some pp /\ hp = h0 ++ [Some BOpaque]
   \/ asset_map_path c = None /\ pp = S (length h0)
      /\ hp = h0 ++ [Some BOpaque;
                     Some (BString (resolve_path (av_dirname url)
                                                 "ASSETMAP.xml"))]) ->
  cstr_at hp (Some pp) = Some s ->
  imf_read_header fuel env url c h0
  = let c3 := {| base_url := Some (length hp); asset_map_path := Some pp;
                 avio_opts := avio_opts c; cpl := Some (length h0);
                 asset_map := Some (S (length hp)) |} in
    match parse_imf_asset_map_from_xml_dom fuel (xmlReadMemory_result env)
            (Some (S (length hp))) (Some (length hp))
            (hp ++ [Some (BString (av_dirname s)); Some (BAssetMap None 0)])
    with
    | Ret r h' =>
        if r <? 0 then (let* (_, c4) := imf_close c3 in ret (r, c4)) h'
        else Ret (0, c3) h'
    | Fault => Fault
    | OutOfFuel => OutOfFuel
    end.
Proof.
  intros Hcpl Hopen Hread Heof Hlen Hlay C.
  unfold imf_read_header.
  replace (cpl_result env <? 0) with false by (symmetry; by apply Z.ltb_ge).
  rewrite (bind_eq _ _ h0 (length h0) (h0 ++ [Some BOpaque])) by reflexivity.
  cbn [asset_map_path base_url avio_opts cpl asset_map].
  assert (Hpath : (match asset_map_path c with
                   | Some a => ret (Some a)
                   | None => av_append_path_component (Some (av_dirname url))
                               (Some "ASSETMAP.xml"%string)
                   end) (h0 ++ [Some BOpaque]) = Ret (Some pp) hp).
  { destruct Hlay as [[-> ->]|(-> & -> & ->)]; [done|].
    unfold av_append_path_component, bind, av_malloc, ret. simpl.
    rewrite length_app, Nat.add_1_r. simpl. by rewrite <- app_assoc. }
  rewrite (bind_eq _ _ _ _ _ Hpath).
  unfold bind at 1.
  rewrite (parse_assetmap_reaches_parser _ _ _ _ _ _ Hopen Hread Heof Hlen C).
  cbn [asset_map_path base_url avio_opts cpl asset_map].
  destruct (parse_imf_asset_map_from_xml_dom _ _ _ _ _) as [r h'| |];
    [|done|done].
  lazy beta iota zeta. by destruct (r <? 0).
Qed.

Lemma owns_in_bounds h m arr ps :
  owns h m arr ps ->
  Forall (fun p => (p < length h)%nat) (ps ++ option_list arr ++ [m]).
Proof.
  intros (Em & _ & Hl & Ha).
  apply Forall_app. split.
  { eapply Forall_impl; [exact Hl|]. apply is_locator_lt. }
  apply Forall_app. split.
  - destruct arr as [a|]; [|constructor].
    destruct Ha as (? & ? & Ea & _).
    repeat constructor. by eapply lookup_lt_Some.
  - repeat constructor. by eapply lookup_lt_Some.
Qed.

Lemma tombstones_all_freed ps h :
  Forall (fun p => (p < length h)%nat) ps ->
  Forall (fun p => tombstones ps h !! p = Some None) ps.
Proof.
  intros F. rewrite Forall_forall in *. intros p Hp.
  apply tombstones_lookup_in; auto.
Qed.

Lemma asset_entry_parts bs n e :
  asset_entry bs n = Some e ->
  asset_uuid n = Some e.1
  /\ forall p, asset_path n = Some p -> e.2 = resolve_path bs p.
Proof.
  unfold asset_entry. destruct (asset_uuid n), (asset_path n); try done.
  intros [= <-]. split; [done|]. by intros ? [= <-].
Qed.

(** C10: on every return of the parser with a non-zero value, the registry
    holds what it held before followed by one entry for each [Asset] that
    precedes the failing one, in document order, with the identifier of its
    [Asset] and, where the [Asset] has a [Path], that path resolved against
    the base directory; nothing is rolled back, and the locators and
    strings that were live before the call are still live and unchanged.
    Releasing them is left to [imf_close].  When the call is the one that
    [imf_read_header] makes (the CPL parsed, the Asset Map file was read to
    its end, its path given or defaulted), the parser leaves a registry
    that owns its array and one live locator for each appended entry;
    [imf_close] on the context of the open returns 0 and frees the base
    directory, those locators, the array and the registry, and nothing
    else; and [imf_read_header] runs it exactly when the value of the
    parser is negative and returns that value, while for a positive value
    it returns 0 and leaves the heap as the parser left it. *)
Theorem failure_keeps_the_appended_entries
    fuel doc m base h r h' es bs :
  registry_view h m = Some es ->
  cstr_at h base = Some bs ->
  parse_imf_asset_map_from_xml_dom fuel doc (Some m) base h = Ret r h' ->
  r <> 0 ->
  exists k added,
    Forall2 (fun n e => asset_uuid n = Some e.1
                        /\ forall p, asset_path n = Some p ->
                                     e.2 = resolve_path bs p)
            (take k (asset_elements doc)) added
    /\ asset_elements doc !! k ≫= asset_entry bs = None
    /\ registry_view h' m = Some (es ++ added)
    /\ keeps h h'
    /\ forall env url c h0 hp pp s,
         0 <= cpl_result env ->
         0 <= avio_open2_result env ->
         0 <= avio_read_result env ->
         avio_feof_result env = true ->
         buf_len env <> 0 ->
         xmlReadMemory_result env = doc ->
         avio_opts c = None ->
         (asset_map_path c = Some pp /\ hp = h0 ++ [Some BOpaque]
          \/ asset_map_path c = None /\ pp = S (length h0)
             /\ hp = h0 ++ [Some BOpaque;
                            Some (BString (resolve_path (av_dirname url)
                                                        "ASSETMAP.xml"))]) ->
         cstr_at hp (Some pp) = Some s ->
         h = hp ++ [Some (BString (av_dirname s)); Some (BAssetMap None 0)] ->
         m = S (length hp) ->
         base = Some (length hp) ->
         exists arr ps,
           owns h' m arr ps
           /\ Forall2 (fun p e => read_entry h' (Some p) = Some e) ps added
           /\ let c3 := {| base_url := base; asset_map_path := Some pp;
                           avio_opts := None; cpl := Some (length h0);
                           asset_map := Some m |} in
              let c4 := {| base_url := None; asset_map_path := Some pp;
                           avio_opts := None; cpl := Some (length h0);
                           asset_map := Some m |} in
              let released := length hp :: ps ++ option_list arr ++ [m] in
              let h1 := tombstones released h' in
              imf_close c3 h' = Ret (0, c4) h1
              /\ Forall (fun p => h1 !! p = Some None) released
              /\ imf_read_header fuel env url c h0
                 = if r <? 0 then Ret (r, c4) h1 else Ret (0, c3) h'.
Proof.
  intros V B H Hr.
  destruct (parse_spec _ _ _ _ _ _ _ _ _ V B H)
    as (k & added & (F & _ & H1) & V' & K).
  exists k, added.
  split; [eapply Forall2_impl; [exact F|]; apply asset_entry_parts|].
  split; [auto|]. split; [done|]. split; [done|].
  intros env url c h0 hp pp s Hcpl Hopen Hread Heof Hlen Hdoc Hopts Hlay C
    -> -> ->.
  set (h := hp ++ [Some (BString (av_dirname s)); Some (BAssetMap None 0)])
    in *.
  assert (Eb : h !! length hp = Some (Some (BString (av_dirname s))))
    by (subst h; by rewrite list_lookup_middle).
  assert (Em : h !! S (length hp) = Some (Some (BAssetMap None 0))).
  { subst h. rewrite lookup_app_r by lia.
    by replace (S (length hp) - length hp)%nat with 1%nat by lia. }
  assert (O : owns h (S (length hp)) None []).
  { split; [exact Em|]. split; [constructor|]. split; [constructor|done]. }
  assert (Hes : es = []).
  { unfold registry_view in V. rewrite Em in V. simpl in V. congruence. }
  subst es. simpl in V'.
  destruct (parse_owns _ _ _ _ _ _ _ _ _ O H) as (arr & ps & O').
  simpl in O'. exists arr, ps.
  split; [done|]. split; [by eapply view_owns_entries|].
  pose proof (K _ _ Eb eq_refl) as Eb'.
  pose proof (imf_close_owned
                {| base_url := Some (length hp); asset_map_path := Some pp;
                   avio_opts := None; cpl := Some (length h0);
                   asset_map := Some (S (length hp)) |}
                h' _ _ _ _ _ eq_refl eq_refl eq_refl Eb' O') as Hclose.
  cbn [asset_map_path cpl] in Hclose.
  lazy zeta. split; [exact Hclose|]. split.
  { apply tombstones_all_freed. constructor.
    - by eapply lookup_lt_Some.
    - by apply owns_in_bounds. }
  rewrite (open_reaches_parser _ _ _ _ _ _ _ _
             Hcpl Hopen Hread Heof Hlen Hlay C).
  lazy zeta. rewrite Hdoc. fold h. rewrite H, Hopts.
  destruct (r <? 0); [|done].
  by rewrite (bind_eq _ _ _ _ _ Hclose).
Qed.

Lemma failure_keeps_the_appended_entries_witness :
  registry_view open_entry_heap 3%nat = Some []
  /\ cstr_at open_entry_heap (Some 2%nat) = Some "/mnt/imf/pkg"%string
  /\ parse_imf_asset_map_from_xml_dom 8 (asset_map_doc failing_second)
       (Some 3%nat) (Some 2%nat) open_entry_heap
     = Ret AVERROR_INVALIDDATA open_heap_after_failure
  /\ AVERROR_INVALIDDATA <> 0
  /\ registry_view open_heap_after_failure 3%nat
     = Some [(sample_uuid, "/mnt/imf/pkg/a.mxf"%string)]
  /\ imf_read_header 8 (env_of failing_second) sample_url closed_context []
     = Ret (AVERROR_INVALIDDATA, context_after_failed_open)
           heap_after_failed_open
  /\ exists k added arr ps,
       Forall2 (fun n e => asset_uuid n = Some e.1
                           /\ forall p, asset_path n = Some p ->
                                e.2 = resolve_path "/mnt/imf/pkg" p)
               (take k (asset_elements (asset_map_doc failing_second))) added
       /\ asset_elements (asset_map_doc failing_second) !! k
            ≫= asset_entry "/mnt/imf/pkg" = None
       /\ registry_view open_heap_after_failure 3%nat = Some ([] ++ added)
       /\ keeps open_entry_heap open_heap_after_failure
       /\ owns open_heap_after_failure 3%nat arr ps
       /\ Forall2 (fun p e => read_entry open_heap_after_failure (Some p)
                              = Some e) ps added
       /\ imf_close {| base_url := Some 2%nat; asset_map_path := Some 1%nat;
                       avio_opts := None; cpl := Some 0%nat;
                       asset_map := Some 3%nat |} open_heap_after_failure
          = Ret (0, context_after_failed_open)
                (tombstones (2%nat :: ps ++ option_list arr ++ [3%nat])
                   open_heap_after_failure)
       /\ Forall (fun p => tombstones (2%nat :: ps ++ option_list arr ++ [3%nat])
                             open_heap_after_failure !! p = Some None)
                 (2%nat :: ps ++ option_list arr ++ [3%nat])
       /\ imf_read_header 8 (env_of failing_second) sample_url
            closed_context []
          = Ret (AVERROR_INVALIDDATA, context_after_failed_open)
                (tombstones (2%nat :: ps ++ option_list arr ++ [3%nat])
                   open_heap_after_failure).
Proof.
  split; [vm_compute; reflexivity|].
  split; [vm_compute; reflexivity|].
  split; [vm_compute; reflexivity|].
  split; [discriminate|].
  split; [vm_compute; reflexivity|].
  split; [vm_compute; reflexivity|].
  destruct (failure_keeps_the_appended_entries 8
              (asset_map_doc failing_second) 3%nat (Some 2%nat)
              open_entry_heap AVERROR_INVALIDDATA open_heap_after_failure []
              "/mnt/imf/pkg"%string)
    as (k & added & F & Hk & V & K & T);
    [vm_compute; reflexivity|vm_compute; reflexivity|vm_compute; reflexivity
    |discriminate|].
  destruct (T (env_of failing_second) sample_url closed_context []
              [Some BOpaque; Some (BString "/mnt/imf/pkg/ASSETMAP.xml")]
              1%nat "/mnt/imf/pkg/ASSETMAP.xml"%string)
    as (arr & ps & O & E & Hclose & Hfreed & Hopen);
    [discriminate|discriminate|discriminate|reflexivity|discriminate
    |reflexivity|reflexivity|right; split; [reflexivity|split; reflexivity]
    |reflexivity|reflexivity|reflexivity|reflexivity|].
  exists k, added, arr, ps.
  split; [exact F|]. split; [exact Hk|]. split; [exact V|].
  split; [exact K|]. split; [exact O|]. split; [exact E|].
  split; [exact Hclose|]. split; [exact Hfreed|exact Hopen].
Defined.

(** ** The properties at concrete inputs *)

Lemma up_to_three_assets_are_registered_witness :
  exists h',
    parse_imf_asset_map_from_xml_dom 3 (asset_map_doc three_assets)
      (Some 1%nat) (Some 0%nat) entry_heap = Ret 0 h'
    /\ registry_view h' 1%nat = Some ([] ++ three_entries)
    /\ keeps entry_heap h'.
Proof.
  apply (up_to_three_assets_are_registered 3 (asset_map_doc three_assets)
           1%nat (Some 0%nat) entry_heap [] "/mnt/imf/pkg"%string
           (asset_element sample_id "a.mxf")
           [asset_element sample_id "b.mxf"; asset_element sample_id "c.mxf"]
           three_entries).
  - reflexivity.
  - repeat constructor.
  - repeat constructor.
  - reflexivity.
  - simpl. lia.
  - reflexivity.
  - simpl. lia.
Defined.

Lemma open_registers_up_to_three_assets_witness :
  exists c1 h1,
    imf_read_header 3 (env_of three_assets) sample_url closed_context []
    = Ret (0, c1) h1
    /\ cstr_at h1 (asset_map_path c1)
       = Some (resolve_path (av_dirname sample_url) "ASSETMAP.xml")
    /\ cstr_at h1 (base_url c1)
       = Some (av_dirname (resolve_path (av_dirname sample_url) "ASSETMAP.xml"))
    /\ asset_map c1 = Some 3%nat
    /\ registry_view h1 3%nat = Some three_entries
    /\ keeps [] h1.
Proof.
  apply (open_registers_up_to_three_assets 3 (env_of three_assets) sample_url
           closed_context []
           (asset_element sample_id "a.mxf")
           [asset_element sample_id "b.mxf"; asset_element sample_id "c.mxf"]
           three_entries).
  - simpl. lia.
  - reflexivity.
  - simpl. lia.
  - simpl. lia.
  - reflexivity.
  - simpl. lia.
  - reflexivity.
  - repeat constructor.
  - repeat constructor.
  - simpl. lia.
  - simpl. lia.
Defined.

Lemma parser_touches_only_the_registry_witness :
  parse_imf_asset_map_from_xml_dom 8 (asset_map_doc three_paths)
    (Some 1%nat) (Some 0%nat) entry_heap = Ret 0 heap_after_success
  /\ (length entry_heap <= length heap_after_success)%nat
  /\ forall x, (x < length entry_heap)%nat -> x <> 1%nat -> None <> Some x ->
               heap_after_success !! x = entry_heap !! x.
Proof.
  split; [vm_compute; reflexivity|].
  apply (parser_touches_only_the_registry 8 (asset_map_doc three_paths) 1%nat
           (Some 0%nat) entry_heap 0 heap_after_success None 0).
  - reflexivity.
  - vm_compute. reflexivity.
Defined.

Lemma success_means_every_child_is_an_asset_witness :
  parse_imf_asset_map_from_xml_dom 8 (asset_map_doc three_paths)
    (Some 1%nat) (Some 0%nat) entry_heap = Ret 0 heap_after_success
  /\ Forall (fun n => av_strcasecmp (name n) "Asset" = 0)
            (asset_elements (asset_map_doc three_paths)).
Proof.
  split; [vm_compute; reflexivity|].
  apply (success_means_every_child_is_an_asset 8 (asset_map_doc three_paths)
           (Some 1%nat) (Some 0%nat) entry_heap heap_after_success).
  vm_compute. reflexivity.
Defined.

Lemma parser_returns_0_1_or_invaliddata_witness :
  parse_imf_asset_map_from_xml_dom 8 (asset_map_doc failing_second)
    (Some 1%nat) (Some 0%nat) entry_heap
  = Ret AVERROR_INVALIDDATA heap_after_failure
  /\ (AVERROR_INVALIDDATA = 0 \/ AVERROR_INVALIDDATA = 1
      \/ AVERROR_INVALIDDATA = AVERROR_INVALIDDATA).
Proof.
  split; [vm_compute; reflexivity|].
  apply (parser_returns_0_1_or_invaliddata 8 (asset_map_doc failing_second)
           (Some 1%nat) (Some 0%nat) entry_heap AVERROR_INVALIDDATA
           heap_after_failure).
  vm_compute. reflexivity.
Defined.

Lemma count_follows_the_entries_witness :
  parse_imf_asset_map_from_xml_dom 8 (asset_map_doc failing_second)
    (Some 1%nat) (Some 0%nat) entry_heap
  = Ret AVERROR_INVALIDDATA heap_after_failure
  /\ exists arr k,
       heap_after_failure !! 1%nat
       = Some (Some (BAssetMap arr (Z.of_nat (length (@nil entry) + k))))
       /\ (k <= length (asset_elements (asset_map_doc failing_second)))%nat
       /\ (AVERROR_INVALIDDATA = 0 ->
           k = length (asset_elements (asset_map_doc failing_second))).
Proof.
  split; [vm_compute; reflexivity|].
  apply (count_follows_the_entries 8 (asset_map_doc failing_second) 1%nat
           (Some 0%nat) entry_heap AVERROR_INVALIDDATA heap_after_failure []
           "/mnt/imf/pkg"%string).
  - reflexivity.
  - reflexivity.
  - vm_compute. reflexivity.
Defined.

Lemma undecodable_id_frees_the_locator_witness :
  parse_imf_asset_map_from_xml_dom 1
    (asset_map_doc [asset_bad_id; asset_element sample_id "a.mxf"])
    None None entry_heap
  = Ret 1 (entry_heap ++ [None])
  /\ live (entry_heap ++ [None]) = live entry_heap.
Proof.
  apply (undecodable_id_frees_the_locator
           (asset_map_doc [asset_bad_id; asset_element sample_id "a.mxf"])
           asset_bad_id [asset_element sample_id "a.mxf"] 0 None None
           entry_heap); reflexivity.
Defined.

Lemma missing_chunk_returns_with_the_locator_live_witness :
  parse_imf_asset_map_from_xml_dom 1 (asset_map_doc [asset_no_chunk])
    (Some 1%nat) (Some 0%nat) entry_heap
  = Ret AVERROR_INVALIDDATA
      (entry_heap ++ [Some (BAssetLocator (Some sample_uuid) None)])
  /\ live (entry_heap ++ [Some (BAssetLocator (Some sample_uuid) None)])
     = S (live entry_heap).
Proof.
  apply (missing_chunk_returns_with_the_locator_live
           (asset_map_doc [asset_no_chunk]) asset_no_chunk [] sample_uuid 0
           (Some 1%nat) (Some 0%nat) entry_heap); reflexivity.
Defined.

Lemma nothing_to_parse_touches_nothing_witness :
  asset_elements (asset_map_doc blank_list) = []
  /\ (parse_imf_asset_map_from_xml_dom 0 (asset_map_doc blank_list)
        None None entry_heap = Ret 0 entry_heap
      \/ parse_imf_asset_map_from_xml_dom 0 (asset_map_doc blank_list)
           None None entry_heap = Ret AVERROR_INVALIDDATA entry_heap).
Proof.
  split; [reflexivity|].
  apply (nothing_to_parse_touches_nothing (asset_map_doc blank_list) 0
           None None entry_heap).
  reflexivity.
Defined.

Lemma release_frees_registry_array_and_locators_witness :
  let h' := tombstones ([2; 7; 12] ++ [16; 1])%nat heap_after_success in
  imf_asset_map_free (Some 1%nat) heap_after_success = Ret tt h'
  /\ (forall x, x ∈ ([2; 7; 12] ++ [16; 1])%nat -> h' !! x = Some None)
  /\ (forall x, x ∉ ([2; 7; 12] ++ [16; 1])%nat ->
                h' !! x = heap_after_success !! x)
  /\ (forall x s, heap_after_success !! x = Some (Some (BString s)) ->
                  h' !! x = Some (Some (BString s))).
Proof.
  apply (release_frees_registry_array_and_locators heap_after_success
           1%nat 16%nat 3 26 [Some 2; Some 7; Some 12]%nat [2; 7; 12]%nat).
  - reflexivity.
  - reflexivity.
  - reflexivity.
  - reflexivity.
  - unfold sizeof_ptr. lia.
  - apply NoDup_ListNoDup. repeat constructor; simpl; intuition lia.
  - repeat constructor; eexists _, _; reflexivity.
Defined.

Lemma released_registry_cannot_be_released_again_witness :
  imf_asset_map_free (Some 1%nat) entry_heap
  = Ret tt [Some (BString "/mnt/imf/pkg"); None]
  /\ imf_asset_map_free (Some 1%nat) [Some (BString "/mnt/imf/pkg"); None]
     = Fault
  /\ forall c r c1 h1,
       asset_map c = Some 1%nat ->
       imf_close c entry_heap = Ret (r, c1) h1 ->
       asset_map c1 = Some 1%nat /\ imf_close c1 h1 = Fault.
Proof.
  split; [reflexivity|].
  apply (released_registry_cannot_be_released_again 1%nat entry_heap tt
           [Some (BString "/mnt/imf/pkg"); None]).
  reflexivity.
Defined.

Lemma close_without_registry_is_idempotent_witness :
  imf_close context_with_base path_heap = Ret (0, closed_context) [None]
  /\ 0 = 0
  /\ imf_close closed_context [None] = Ret (0, closed_context) [None].
Proof.
  split; [reflexivity|].
  apply (close_without_registry_is_idempotent context_with_base path_heap 0
           closed_context [None]); reflexivity.
Defined.

Lemma open_never_returns_a_positive_value_witness :
  returned (parse_imf_asset_map_from_xml_dom 8 (asset_map_doc [asset_bad_id])
              (Some 3%nat) (Some 2%nat)
              [Some BOpaque; Some (BString "/mnt/imf/pkg/ASSETMAP.xml");
               Some (BString "/mnt/imf/pkg"); Some (BAssetMap None 0)])
  = Some 1
  /\ imf_read_header 8 (env_of [asset_bad_id]) sample_url closed_context []
     = Ret (0, context_after_bad_id) heap_after_bad_id
  /\ 0 <= 0.
Proof.
  split; [vm_compute; reflexivity|].
  split; [vm_compute; reflexivity|].
  apply (open_never_returns_a_positive_value 8 (env_of [asset_bad_id])
           sample_url closed_context [] 0 context_after_bad_id
           heap_after_bad_id).
  vm_compute. reflexivity.
Defined.

Lemma stream_failure_leaves_an_empty_registry_witness :
  exists r c1 h1,
    parse_assetmap 8 env_unreadable closed_context (Some 0%nat) false path_heap
    = Ret (r, c1) h1
    /\ r < 0
    /\ h1 = path_heap ++ [Some (BString (av_dirname "/mnt/imf/pkg/ASSETMAP.xml"));
                          Some (BAssetMap None 0)]
    /\ base_url c1 = Some (length path_heap)
    /\ asset_map c1 = Some (S (length path_heap))
    /\ registry_view h1 (S (length path_heap)) = Some [].
Proof.
  apply (stream_failure_leaves_an_empty_registry 8 env_unreadable
           closed_context (Some 0%nat) false path_heap
           "/mnt/imf/pkg/ASSETMAP.xml"%string).
  - reflexivity.
  - left. split; [reflexivity|]. simpl. lia.
Defined.

Lemma cpl_failure_leaves_everything_untouched_witness :
  imf_read_header 8 env_bad_cpl sample_url closed_context path_heap
  = Ret (cpl_result env_bad_cpl, closed_context) path_heap.
Proof.
  apply (cpl_failure_leaves_everything_untouched 8 env_bad_cpl sample_url
           closed_context path_heap); reflexivity.
Defined.
